(** * uORB manager (uORB/manager/uORBManager.cxx): a shallow embedding

    The manager sits on top of a character-device layer (the VFS calls
    [stat], [open], [close], [read], [ioctl], and the static entry points of
    [uORB::DeviceNode]).  Those live outside this file, so the manager is
    written against an interface ([DeviceLayer]) and threads an explicit
    state: the C global [errno], the members of the [Manager] singleton and
    the state of the device layer. *)

From Stdlib Require Import ZArith String Ascii List Bool Lia.
From stdpp Require Import base gmap strings.
From Equations Require Import Equations.
Import ListNotations.

Local Open Scope string_scope.
Local Open Scope Z_scope.

(** ** C-level constants *)

Definition OK : Z := 0.
Definition ERROR : Z := -1.

(** errno numbers (NuttX <errno.h>) *)
Definition ENOENT : Z := 2.
Definition EINTR : Z := 4.
Definition EIO : Z := 5.
Definition EBADF : Z := 9.
Definition ENOMEM : Z := 12.
Definition EEXIST : Z := 17.
Definition EINVAL : Z := 22.
Definition ENOTTY : Z := 25.
Definition ENAMETOOLONG : Z := 36.
Definition ENODATA : Z := 61.

(** open(2) flags *)
Definition O_RDONLY : Z := 1.
Definition O_WRONLY : Z := 2.

(** [unsigned] is a 32-bit type on every NuttX target. *)
Definition UINT_MODULUS : Z := 2 ^ 32.
Definition to_unsigned (z : Z) : Z := z mod UINT_MODULUS.

(** Conversion of an [unsigned] to [int], as in "int inst = instance": values
    from 2^31 on come out negative. *)
Definition to_int (z : Z) : Z := (z + 2 ^ 31) mod UINT_MODULUS - 2 ^ 31.

(** ** Data *)

Definition payload := list Byte.byte.

(** struct orb_metadata: the fields the manager reads. *)
Record orb_metadata := {
  o_name : string;
  o_size : Z
}.

(** orb_advert_t is a [void *].  The manager compares it with its own
    address [_Instance]; otherwise it is the address of a [DeviceNode],
    which is identified here by its device path. *)
Inductive orb_advert_t :=
| nullptr
| manager_instance
| node_ptr (devname : string).

Definition is_Some_b {A} (o : option A) : bool :=
  match o with Some _ => true | None => false end.

Definition orb_advert_eqb (a b : orb_advert_t) : bool :=
  match a, b with
  | nullptr, nullptr => true
  | manager_instance, manager_instance => true
  | node_ptr p, node_ptr q => String.eqb p q
  | _, _ => false
  end.

(** struct PublisherRule: [topics] is a null-terminated array of C strings. *)
Record PublisherRule := {
  topics : list string;
  module_name : string;
  ignore_other_topics : bool
}.

(** struct orb_advertdata; [adv_instance] is the [int *instance] member:
    [None] for a null pointer, [Some v] for a pointer to an [int] holding
    [v]. *)
Record orb_advertdata := {
  adv_meta : orb_metadata;
  adv_instance : option Z;
  adv_priority : Z
}.

(** ** The device layer as seen by the manager *)

(** What a call into the layer below hands back.  [Ok rc x]: the call
    returned [rc] and stored [x] through its pointer argument ([tt] when it
    has none).  [Err e x]: the call returned -1 and set [errno] to [e]; [x]
    tells whether it stored through its pointer argument all the same. *)
Inductive reply (X : Type) :=
| Ok (rc : Z) (x : X)
| Err (e : Z) (x : option X).
Arguments Ok {X} rc x.
Arguments Err {X} e x.

Definition rc_of {X} (r : reply X) : Z :=
  match r with Ok rc _ => rc | Err _ _ => -1 end.

Definition stored {X} (r : reply X) : option X :=
  match r with Ok _ x => Some x | Err _ x => x end.

(** ioctl requests issued by the manager, each with its by-value argument
    and indexed by the type of what it stores through a pointer argument. *)
Inductive ioctl_req : Type -> Type :=
| ORBIOCADVERTISE (adv : orb_advertdata) : ioctl_req (option Z)
| ORBIOCISPUBLISHED : ioctl_req Z
| ORBIOCSETQUEUESIZE (queue_size : Z) : ioctl_req unit
| ORBIOCGADVERTISER : ioctl_req orb_advert_t
| ORBIOCUPDATED : ioctl_req bool
| ORBIOCLASTUPDATE : ioctl_req Z
| ORBIOCGPRIORITY : ioctl_req Z
| ORBIOCSETINTERVAL (interval : Z) : ioctl_req unit
| ORBIOCGETINTERVAL : ioctl_req Z.

Class DeviceLayer (W : Type) := {
  TOPIC_MASTER_DEVICE_PATH : string;
  ORB_PRIO_DEFAULT : Z;
  (* uORB::Utils::node_mkpath(buf, meta, instance): return value and buf *)
  node_mkpath : option orb_metadata -> option Z -> Z * string;
  px4_get_taskname : W -> string;
  sys_stat : string -> W -> reply unit * W;
  sys_open : string -> Z -> W -> reply unit * W;
  sys_close : Z -> W -> reply unit * W;
  sys_read : Z -> Z -> W -> reply payload * W;
  sys_ioctl : forall X, Z -> ioctl_req X -> W -> reply X * W;
  (* static members of uORB::DeviceNode *)
  DeviceNode_publish :
    orb_metadata -> orb_advert_t -> option payload -> W -> reply unit * W;
  DeviceNode_unadvertise : orb_advert_t -> W -> reply unit * W;
  DeviceNode_topic_advertised : orb_metadata -> Z -> W -> W
}.
Arguments sys_ioctl {W _ X} fd req w.

(** Conditional compilation of the manager. *)
Record BuildConfig := {
  ORB_USE_PUBLISHER_RULES : bool;
  ORB_COMMUNICATOR : bool
}.

(** Data members of [uORB::Manager] used below. *)
Record Manager := {
  _has_publisher_rules : bool;
  _publisher_rule : PublisherRule;
  _remote_topics : gset string
}.

Record state (W : Type) := {
  errno : Z;
  manager : Manager;
  devices : W
}.
Arguments errno {W} s.
Arguments manager {W} s.
Arguments devices {W} s.
Arguments Build_state {W} errno manager devices.

(** ** A state monad for the manager's member functions *)

Definition M (W A : Type) : Type := state W -> A * state W.

Definition ret {W A} (a : A) : M W A := fun s => (a, s).

Definition bind {W A B} (m : M W A) (k : A -> M W B) : M W B :=
  fun s => let '(a, s') := m s in k a s'.

Declare Scope mgr_scope.
Delimit Scope mgr_scope with mgr.
Notation "x <- m ;; k" := (bind m (fun x => k))
  (at level 100, m at next level, right associativity) : mgr_scope.
Notation "m ;;; k" := (bind m (fun _ => k))
  (at level 100, right associativity) : mgr_scope.

Definition set_errno {W} (e : Z) : M W unit :=
  fun s => (tt, Build_state e (manager s) (devices s)).

Definition get_errno {W} : M W Z := fun s => (errno s, s).

Definition get_manager {W} : M W Manager := fun s => (manager s, s).

Definition set_manager {W} (m : Manager) : M W unit :=
  fun s => (tt, Build_state (errno s) m (devices s)).

(** Run one call of the layer below: its effect on the device state, and
    on [errno] when it fails. *)
Definition call {W X} (op : W -> reply X * W) : M W (reply X) :=
  fun s =>
    let '(r, w) := op (devices s) in
    (r, Build_state (match r with Ok _ _ => errno s | Err e _ => e end)
                    (manager s) w).

(** ** uORB::Manager::findTopic *)

Fixpoint findTopic_loop (topics_ptr : list string) (topic_name : string) : bool :=
  match topics_ptr with
  | [] => false
  | t :: rest =>
      if String.eqb t topic_name then true else findTopic_loop rest topic_name
  end.

Definition findTopic (rule : PublisherRule) (topic_name : string) : bool :=
  findTopic_loop (topics rule) topic_name.

(** The publisher-rule gate at the head of [orb_advertise_multi]:
    [true] when the gate returns the manager's own address. *)
Definition publisher_rule_denies (cfg : BuildConfig) (mgr : Manager)
    (prog_name : string) (topic_name : string) : bool :=
  if ORB_USE_PUBLISHER_RULES cfg then
    if _has_publisher_rules mgr then
      if String.eqb (module_name (_publisher_rule mgr)) prog_name then
        if ignore_other_topics (_publisher_rule mgr) then
          if negb (findTopic (_publisher_rule mgr) topic_name) then true
          else false
        else false
      else
        if findTopic (_publisher_rule mgr) topic_name then true else false
    else false
  else false.

Section ManagerCode.

Context {W : Type} {D : DeviceLayer W} (cfg : BuildConfig).

Local Open Scope mgr_scope.

(** uORB::Manager::orb_publish *)
Definition orb_publish (meta : orb_metadata) (handle : orb_advert_t)
    (data : option payload) : M W Z :=
  if ORB_USE_PUBLISHER_RULES cfg && orb_advert_eqb handle manager_instance
  then ret OK
  else r <- call (DeviceNode_publish meta handle data) ;; ret (rc_of r).

(** uORB::Manager::orb_unadvertise *)
Definition orb_unadvertise (handle : orb_advert_t) : M W Z :=
  if ORB_USE_PUBLISHER_RULES cfg && orb_advert_eqb handle manager_instance
  then ret OK
  else r <- call (DeviceNode_unadvertise handle) ;; ret (rc_of r).

(** uORB::Manager::orb_unsubscribe *)
Definition orb_unsubscribe (fd : Z) : M W Z :=
  r <- call (sys_close fd) ;; ret (rc_of r).

(** uORB::Manager::orb_copy; the second component is what [read] left in
    [buffer], if anything. *)
Definition orb_copy (meta : orb_metadata) (handle : Z) : M W (Z * option payload) :=
  r <- call (sys_read handle (o_size meta)) ;;
  let ret_ := rc_of r in
  if ret_ <? 0 then ret (-1, stored r)
  else if negb (ret_ =? o_size meta) then
    set_errno EIO ;;; ret (-1, stored r)
  else ret (OK, stored r).

(** uORB::Manager::orb_check; the second component is [*updated]. *)
Definition orb_check (handle : Z) : M W (Z * bool) :=
  let updated := false in
  r <- call (sys_ioctl handle ORBIOCUPDATED) ;;
  ret (rc_of r, match stored r with Some b => b | None => updated end).

(** uORB::Manager::orb_stat; [time] is what the caller's variable holds. *)
Definition orb_stat (handle : Z) (time : Z) : M W (Z * Z) :=
  r <- call (sys_ioctl handle ORBIOCLASTUPDATE) ;;
  ret (rc_of r, match stored r with Some t => t | None => time end).

(** uORB::Manager::orb_priority *)
Definition orb_priority (handle : Z) (priority : Z) : M W (Z * Z) :=
  r <- call (sys_ioctl handle ORBIOCGPRIORITY) ;;
  ret (rc_of r, match stored r with Some p => p | None => priority end).

(** uORB::Manager::orb_set_interval: [interval * 1000] is an [unsigned]
    product. *)
Definition orb_set_interval (handle : Z) (interval : Z) : M W Z :=
  r <- call (sys_ioctl handle (ORBIOCSETINTERVAL (to_unsigned (interval * 1000)))) ;;
  ret (rc_of r).

(** uORB::Manager::orb_get_interval; [interval] is what the caller's
    variable holds on entry, the second component what it holds on return. *)
Definition orb_get_interval (handle : Z) (interval : Z) : M W (Z * Z) :=
  r <- call (sys_ioctl handle ORBIOCGETINTERVAL) ;;
  let interval := match stored r with Some v => v | None => interval end in
  let interval := interval / 1000 in
  ret (rc_of r, interval).

(** uORB::Manager::node_advertise; the second component is [*instance]
    after the call. *)
Definition node_advertise (meta : orb_metadata) (instance : option Z)
    (priority : Z) : M W (Z * option Z) :=
  let adv := {| adv_meta := meta; adv_instance := instance;
                adv_priority := priority |} in
  o <- call (sys_open TOPIC_MASTER_DEVICE_PATH 0) ;;
  let fd := rc_of o in
  if fd <? 0 then ret (-1, instance)
  else
    r <- call (sys_ioctl fd (ORBIOCADVERTISE adv)) ;;
    let instance :=
      match instance, stored r with
      | Some _, Some (Some v) => Some v
      | _, _ => instance
      end in
    e <- get_errno ;;
    let ret_ :=
      if negb (OK =? rc_of r) && (EEXIST =? e) then OK else rc_of r in
    _ <- call (sys_close fd) ;;
    ret (ret_, instance).

(** uORB::Manager::node_open; the second component is [*instance] after
    the call ([None] when [instance] is a null pointer). *)
Definition node_open (meta : option orb_metadata) (data : option payload)
    (advertiser : bool) (instance : option Z) (priority : Z)
    : M W (Z * option Z) :=
  let flags := if advertiser then O_WRONLY else O_RDONLY in
  (* "if (fd < 0) { errno = EIO; return -1; } return fd;" *)
  let finish (fd : Z) (instance : option Z) : M W (Z * option Z) :=
    if fd <? 0 then set_errno EIO ;;; ret (-1, instance)
    else ret (fd, instance) in
  (* "we may need to advertise the node..." *)
  let advertise_if_needed (m : orb_metadata) (fd : Z) (instance : option Z)
      : M W (Z * option Z) :=
    if fd <? 0 then
      a <- node_advertise m instance priority ;;
      let instance := snd a in
      if fst a =? OK then
        let mk := node_mkpath (Some m) instance in
        if negb (fst mk =? OK) then
          set_errno (- fst mk) ;;; ret (-1, instance)
        else
          o <- call (sys_open (snd mk) flags) ;;
          finish (rc_of o) instance
      else finish fd instance
    else finish fd instance in
  match meta with
  | None => set_errno ENOENT ;;; ret (-1, instance)
  | Some m =>
      if advertiser && negb (is_Some_b data) then
        set_errno EINVAL ;;; ret (-1, instance)
      else if negb (is_Some_b instance) || negb advertiser then
        let mk := node_mkpath meta instance in
        if negb (fst mk =? OK) then
          set_errno (- fst mk) ;;; ret (-1, instance)
        else
          o <- call (sys_open (snd mk) flags) ;;
          advertise_if_needed m (rc_of o) instance
      else
        advertise_if_needed m (-1) (Some 0)
  end.

(** uORB::Manager::orb_subscribe *)
Definition orb_subscribe (meta : option orb_metadata) : M W Z :=
  r <- node_open meta None false None ORB_PRIO_DEFAULT ;; ret (fst r).

(** uORB::Manager::orb_subscribe_multi: [instance] is an [unsigned], copied
    into the [int] whose address node_open gets. *)
Definition orb_subscribe_multi (meta : option orb_metadata) (instance : Z)
    : M W Z :=
  let inst := to_int instance in
  r <- node_open meta None false (Some inst) ORB_PRIO_DEFAULT ;; ret (fst r).

(** uORB::Manager::orb_advertise_multi.  [meta] is dereferenced on every
    path through the function, so it is not a null pointer here.  The
    second component is [*instance] after the call. *)
Definition orb_advertise_multi (meta : orb_metadata) (data : option payload)
    (instance : option Z) (priority : Z) (queue_size : Z)
    : M W (orb_advert_t * option Z) :=
  fun s =>
  let prog_name := px4_get_taskname (devices s) in
  if publisher_rule_denies cfg (manager s) prog_name (o_name meta) then
    (manager_instance, instance, s)
  else
   (p <- node_open (Some meta) data true instance priority ;;
    let fd := fst p in
    let instance := snd p in
    if fd =? -1 then ret (nullptr, instance)
    else
      (* the result of this ioctl is only logged *)
      _ <- call (sys_ioctl fd (ORBIOCSETQUEUESIZE queue_size)) ;;
      g <- call (sys_ioctl fd ORBIOCGADVERTISER) ;;
      _ <- call (sys_close fd) ;;
      match g with
      | Err _ _ => ret (nullptr, instance)
      | Ok result advertiser =>
          if result =? -1 then ret (nullptr, instance)
          else
            _ <- (if ORB_COMMUNICATOR cfg
                  then fun s => (tt, Build_state (errno s) (manager s)
                         (DeviceNode_topic_advertised meta priority (devices s)))
                  else ret tt) ;;
            result <- orb_publish meta advertiser data ;;
            if result =? -1 then ret (nullptr, instance)
            else ret (advertiser, instance)
      end) s.

(** uORB::Manager::orb_exists *)
Definition orb_exists (meta : option orb_metadata) (instance : Z) : M W Z :=
  let inst := instance in
  let mk := node_mkpath meta (Some inst) in
  if negb (fst mk =? OK) then set_errno (- fst mk) ;;; ret (-1)
  else
    let path := snd mk in
    st <- call (sys_stat path) ;;
    mgr <- get_manager ;;
    let ret_ := rc_of st in
    let ret_ :=
      if ORB_COMMUNICATOR cfg then
        match meta with
        | Some m =>
            if (ret_ =? -1) && negb (bool_decide (_remote_topics mgr = ∅))
            then (if bool_decide (o_name m ∈ _remote_topics mgr) then OK else -1)
            else ret_
        | None => ret_
        end
      else ret_ in
    if ret_ =? 0 then
      o <- call (sys_open path 0) ;;
      let fd := rc_of o in
      if fd >=? 0 then
        r <- call (sys_ioctl fd ORBIOCISPUBLISHED) ;;
        let ret_ :=
          match r with
          | Ok rc is_published =>
              if (rc =? 0) && (is_published =? 0) then -1 else ret_
          | Err _ _ => ret_
          end in
        _ <- call (sys_close fd) ;;
        ret ret_
      else ret ret_
    else ret ret_.

(** uORB::Manager::process_remote_topic (compiled with ORB_COMMUNICATOR) *)
Definition process_remote_topic (topic_name : string) (isAdvertisement : bool)
    : M W Z :=
  mgr <- get_manager ;;
  let rc := 0 in
  set_manager
    {| _has_publisher_rules := _has_publisher_rules mgr;
       _publisher_rule := _publisher_rule mgr;
       _remote_topics :=
         if isAdvertisement then {[ topic_name ]} ∪ _remote_topics mgr
         else _remote_topics mgr ∖ {[ topic_name ]} |} ;;;
  ret rc.

End ManagerCode.

(** ** A device layer modelled from the specification

    The registry ([DeviceMaster]), the topic nodes ([DeviceNode]) and the
    path formatter ([uORB::Utils]) are described in the specification only;
    this is the layer the concrete scenarios below run on. *)

Module SpecDevice.

(** Modelled from the spec: the bounds of section 4.5 (MAX_PATH) and of the
    data model (instances 0..3), for ORB_MULTI_MAX_INSTANCES and orb_maxpath
    of the uORB headers. *)
Definition MAX_PATH : Z := 128.
Definition MAX_INSTANCES : Z := 4.

(** Modelled from the spec: the TopicNode of section 3 (the fields that the
    modelled operations use; waiters and the lock are left out). *)
Record TopicNode := {
  tn_payload_size : Z;
  tn_queue_size : Z;
  tn_ring : list payload;          (* newest first, at most queue_size *)
  tn_generation : Z;
  tn_priority : Z;
  tn_advertised : bool;
  tn_publisher_count : Z;
  tn_last_publication : Z
}.

(** Modelled from the spec: the SubscriberState of section 3, kept per open
    file; [of_path] is the node (or the master device) the file refers to. *)
Record OpenFile := {
  of_path : string;
  of_flags : Z;
  of_last_generation : Z;
  of_interval_us : Z;
  of_last_copy_time_us : Z;
  of_seen : bool
}.

Record World := {
  taskname : string;               (* name of the calling task *)
  now : Z;                         (* monotonic clock, microseconds *)
  nodes : gmap string TopicNode;
  files : gmap Z OpenFile;
  host_faults : list Z             (* pending transient read errors *)
}.

Definition master_path : string := "/obj/_obj_".

Definition with_nodes (w : World) (n : gmap string TopicNode) : World :=
  {| taskname := taskname w; now := now w; nodes := n; files := files w;
     host_faults := host_faults w |}.

Definition with_files (w : World) (f : gmap Z OpenFile) : World :=
  {| taskname := taskname w; now := now w; nodes := nodes w; files := f;
     host_faults := host_faults w |}.

Definition with_faults (w : World) (l : list Z) : World :=
  {| taskname := taskname w; now := now w; nodes := nodes w; files := files w;
     host_faults := l |}.

(** Modelled from the spec: the path formatter of section 4.5, "/obj/<name>"
    for instance 0 and "/obj/<name><n>" for n >= 1, rejected when it does not
    fit MAX_PATH; a null descriptor is caller misuse. *)
Definition digit (d : Z) : string :=
  String (ascii_of_nat (48 + Z.to_nat d)) EmptyString.

Definition decimal (n : Z) : string :=
  if n <? 10 then digit n
  else if n <? 100 then digit (n / 10) ++ digit (n mod 10)
  else digit (n / 100 mod 10) ++ digit (n / 10 mod 10) ++ digit (n mod 10).

Definition mkpath (meta : option orb_metadata) (instance : option Z)
    : Z * string :=
  match meta with
  | None => (- EINVAL, EmptyString)
  | Some m =>
      let index := match instance with Some i => i | None => 0 end in
      let path :=
        "/obj/" ++ o_name m ++ (if index =? 0 then EmptyString else decimal index) in
      if Z.of_nat (String.length path) >=? MAX_PATH
      then (- ENAMETOOLONG, path)
      else (OK, path)
  end.

(** Lowest descriptor number, from 3 upwards, that is not open. *)
Fixpoint first_free (f : gmap Z OpenFile) (fd : Z) (fuel : nat) : Z :=
  match fuel with
  | O => fd
  | S n => match f !! fd with
           | None => fd
           | Some _ => first_free f (fd + 1) n
           end
  end.

Definition fresh_fd (f : gmap Z OpenFile) : Z := first_free f 3 (size f).

Definition new_file (path : string) (flags : Z) : OpenFile :=
  {| of_path := path; of_flags := flags; of_last_generation := 0;
     of_interval_us := 0; of_last_copy_time_us := 0; of_seen := false |}.

Definition new_node (meta : orb_metadata) (priority : Z) : TopicNode :=
  {| tn_payload_size := o_size meta; tn_queue_size := 1; tn_ring := [];
     tn_generation := 0; tn_priority := priority; tn_advertised := false;
     tn_publisher_count := 0; tn_last_publication := 0 |}.

Definition stat (path : string) (w : World) : reply unit * World :=
  if String.eqb path master_path then (Ok 0 tt, w)
  else match nodes w !! path with
       | Some _ => (Ok 0 tt, w)
       | None => (Err ENOENT None, w)
       end.

(** Modelled from the spec: opening a node as advertiser registers a
    publisher and marks the node advertised (section 3). *)
Definition open (path : string) (flags : Z) (w : World) : reply unit * World :=
  let fd := fresh_fd (files w) in
  if String.eqb path master_path then
    (Ok fd tt, with_files w (<[fd := new_file path flags]> (files w)))
  else
    match nodes w !! path with
    | None => (Err ENOENT None, w)
    | Some n =>
        let n' :=
          if flags =? O_WRONLY then
            {| tn_payload_size := tn_payload_size n;
               tn_queue_size := tn_queue_size n; tn_ring := tn_ring n;
               tn_generation := tn_generation n;
               tn_priority := tn_priority n; tn_advertised := true;
               tn_publisher_count := tn_publisher_count n + 1;
               tn_last_publication := tn_last_publication n |}
          else n in
        (Ok fd tt,
         with_files (with_nodes w (<[path := n']> (nodes w)))
                    (<[fd := new_file path flags]> (files w)))
    end.

Definition close (fd : Z) (w : World) : reply unit * World :=
  match files w !! fd with
  | None => (Err EBADF None, w)
  | Some _ => (Ok 0 tt, with_files w (delete fd (files w)))
  end.

(** Modelled from the spec: TopicNode.read of section 4.2.  A pending
    transient fault of a host-backed device path fails the read; otherwise
    at most [buflen] bytes of the selected sample are delivered. *)
Definition sample_at (n : TopicNode) (g : Z) : payload :=
  default [] (tn_ring n !! Z.to_nat (to_unsigned (tn_generation n - 1 - g))).

Definition read (fd : Z) (buflen : Z) (w : World) : reply payload * World :=
  match files w !! fd with
  | None => (Err EBADF None, w)
  | Some f =>
      match host_faults w with
      | e :: rest => (Err e None, with_faults w rest)
      | [] =>
          match nodes w !! of_path f with
          | None => (Err EINVAL None, w)
          | Some n =>
              let gen := tn_generation n in
              let q := tn_queue_size n in
              if gen =? 0 then (Err ENODATA None, w)
              else
                let behind := to_unsigned (gen - of_last_generation f) in
                let pick :=
                  if negb (of_seen f) then (gen - 1, gen)
                  else if behind =? 0 then (gen - 1, gen)
                  else if behind >=? q then (gen - q, gen - q + 1)
                  else (of_last_generation f, of_last_generation f + 1) in
                let bytes := take (Z.to_nat buflen) (sample_at n (fst pick)) in
                let f' :=
                  {| of_path := of_path f; of_flags := of_flags f;
                     of_last_generation := to_unsigned (snd pick);
                     of_interval_us := of_interval_us f;
                     of_last_copy_time_us := now w; of_seen := true |} in
                (Ok (Z.of_nat (length bytes)) bytes,
                 with_files w (<[fd := f']> (files w)))
          end
      end
  end.

(** Modelled from the spec: instance allocation of section 4.5, scanning
    from the index handed in for the first slot that is absent or was never
    published (a latent subscription is taken over by the advertiser). *)
Fixpoint claim_slot (meta : orb_metadata) (priority : Z)
    (n : gmap string TopicNode) (i : Z) (tries : nat)
    : option (Z * gmap string TopicNode) :=
  match tries with
  | O => None
  | S t =>
      let path := snd (mkpath (Some meta) (Some i)) in
      match n !! path with
      | None => Some (i, <[path := new_node meta priority]> n)
      | Some node =>
          if tn_generation node =? 0 then Some (i, n)
          else claim_slot meta priority n (i + 1) t
      end
  end.

Definition master_advertise (adv : orb_advertdata) (w : World)
    : reply (option Z) * World :=
  let meta := adv_meta adv in
  let mk := mkpath (Some meta) (adv_instance adv) in
  if negb (fst mk =? OK) then (Err (- fst mk) None, w)
  else
    match adv_instance adv with
    | None =>
        match nodes w !! snd mk with
        | Some _ => (Err EEXIST None, w)
        | None =>
            (Ok 0 None,
             with_nodes w (<[snd mk := new_node meta (adv_priority adv)]> (nodes w)))
        end
    | Some k =>
        if (k <? 0) || (k >=? MAX_INSTANCES) then (Err ENOMEM None, w)
        else
          match claim_slot meta (adv_priority adv) (nodes w) k
                  (Z.to_nat (MAX_INSTANCES - k)) with
          | None => (Err ENOMEM None, w)
          | Some (i, n') => (Ok 0 (Some i), with_nodes w n')
          end
    end.

Definition set_queue_size (n : TopicNode) (q : Z) : TopicNode :=
  {| tn_payload_size := tn_payload_size n; tn_queue_size := q;
     tn_ring := tn_ring n; tn_generation := tn_generation n;
     tn_priority := tn_priority n; tn_advertised := tn_advertised n;
     tn_publisher_count := tn_publisher_count n;
     tn_last_publication := tn_last_publication n |}.

Definition set_interval_us (f : OpenFile) (us : Z) : OpenFile :=
  {| of_path := of_path f; of_flags := of_flags f;
     of_last_generation := of_last_generation f; of_interval_us := us;
     of_last_copy_time_us := of_last_copy_time_us f; of_seen := of_seen f |}.

(** Modelled from the spec: "updated" of section 3. *)
Definition updated (w : World) (f : OpenFile) (n : TopicNode) : bool :=
  (to_unsigned (tn_generation n - of_last_generation f) >=? 1)
  && ((of_interval_us f =? 0)
      || (now w - of_last_copy_time_us f >=? of_interval_us f)).

(** Modelled from the spec: the requests a node answers.  The queue size is
    installed (clamped to at least 1) while nothing was published; later a
    larger size is refused and the node is left as it is (section 4.1). *)
Definition node_ioctl {X} (fd : Z) (f : OpenFile) (n : TopicNode)
    (req : ioctl_req X) (w : World) : reply X * World :=
  match req in ioctl_req T return reply T * World with
  | ORBIOCADVERTISE _ => (Err ENOTTY None, w)
  | ORBIOCISPUBLISHED => (Ok 0 (if tn_generation n =? 0 then 0 else 1), w)
  | ORBIOCSETQUEUESIZE q =>
      let q := Z.max q 1 in
      if tn_generation n =? 0 then
        (Ok 0 tt, with_nodes w (<[of_path f := set_queue_size n q]> (nodes w)))
      else if q <=? tn_queue_size n then (Ok 0 tt, w)
      else (Err EINVAL None, w)
  | ORBIOCGADVERTISER => (Ok 0 (node_ptr (of_path f)), w)
  | ORBIOCUPDATED => (Ok 0 (updated w f n), w)
  | ORBIOCLASTUPDATE => (Ok 0 (tn_last_publication n), w)
  | ORBIOCGPRIORITY => (Ok 0 (tn_priority n), w)
  | ORBIOCSETINTERVAL us =>
      (Ok 0 tt, with_files w (<[fd := set_interval_us f us]> (files w)))
  | ORBIOCGETINTERVAL => (Ok 0 (of_interval_us f), w)
  end.

Definition ioctl {X} (fd : Z) (req : ioctl_req X) (w : World)
    : reply X * World :=
  match files w !! fd with
  | None => (Err EBADF None, w)
  | Some f =>
      if String.eqb (of_path f) master_path then
        match req in ioctl_req T return reply T * World with
        | ORBIOCADVERTISE adv => master_advertise adv w
        | _ => (Err ENOTTY None, w)
        end
      else
        match nodes w !! of_path f with
        | None => (Err EINVAL None, w)
        | Some n => node_ioctl fd f n req w
        end
  end.

(** Modelled from the spec: TopicNode.write of section 4.2. *)
Definition publish (meta : orb_metadata) (handle : orb_advert_t)
    (data : option payload) (w : World) : reply unit * World :=
  match handle, data with
  | node_ptr p, Some d =>
      match nodes w !! p with
      | None => (Err EINVAL None, w)
      | Some n =>
          if negb (o_size meta =? tn_payload_size n) then (Err EIO None, w)
          else
            let n' :=
              {| tn_payload_size := tn_payload_size n;
                 tn_queue_size := tn_queue_size n;
                 tn_ring := take (Z.to_nat (tn_queue_size n)) (d :: tn_ring n);
                 tn_generation := to_unsigned (tn_generation n + 1);
                 tn_priority := tn_priority n;
                 tn_advertised := tn_advertised n;
                 tn_publisher_count := tn_publisher_count n;
                 tn_last_publication := now w |} in
            (Ok 0 tt, with_nodes w (<[p := n']> (nodes w)))
      end
  | _, _ => (Err EINVAL None, w)
  end.

(** Modelled from the spec: unadvertise of section 4.1. *)
Definition unadvertise (handle : orb_advert_t) (w : World)
    : reply unit * World :=
  match handle with
  | node_ptr p =>
      match nodes w !! p with
      | None => (Err EINVAL None, w)
      | Some n =>
          let c := Z.max 0 (tn_publisher_count n - 1) in
          let n' :=
            {| tn_payload_size := tn_payload_size n;
               tn_queue_size := tn_queue_size n; tn_ring := tn_ring n;
               tn_generation := tn_generation n;
               tn_priority := tn_priority n;
               tn_advertised := tn_advertised n && negb (c =? 0);
               tn_publisher_count := c;
               tn_last_publication := tn_last_publication n |} in
          (Ok 0 tt, with_nodes w (<[p := n']> (nodes w)))
      end
  | _ => (Err EINVAL None, w)
  end.

(** Following the spec's words (sections 4.1 and 8): the node of (d, i) has
    been advertised and published on. *)
Definition is_published (w : World) (d : orb_metadata) (i : Z) : bool :=
  match nodes w !! snd (mkpath (Some d) (Some i)) with
  | Some n => tn_advertised n && negb (tn_generation n =? 0)
  | None => false
  end.



#[export] Instance layer : DeviceLayer World := {|
  TOPIC_MASTER_DEVICE_PATH := master_path;
  ORB_PRIO_DEFAULT := 75;
  node_mkpath := mkpath;
  px4_get_taskname := taskname;
  sys_stat := stat;
  sys_open := open;
  sys_close := close;
  sys_read := read;
  sys_ioctl := @ioctl;
  DeviceNode_publish := publish;
  DeviceNode_unadvertise := unadvertise;
  DeviceNode_topic_advertised := fun _ _ w => w
|}.

End SpecDevice.

(** ** Publisher rules file (readPublisherRulesFromFile and its helpers)

    C strings are [string]s without the terminating NUL; a buffer that was
    cut in place holds NUL characters inside. *)

Module Rules.

Definition NUL : ascii := "000"%char.
Definition TAB : ascii := "009"%char.
Definition LF : ascii := "010"%char.
Definition SPACE : ascii := " "%char.
Definition COMMA : ascii := ","%char.

Definition is_blank (c : ascii) : bool :=
  Ascii.eqb c SPACE || Ascii.eqb c TAB.

(** The C string a pointer into a buffer denotes: up to the first NUL. *)
Fixpoint cstr (p : string) : string :=
  match p with
  | EmptyString => EmptyString
  | String c rest => if Ascii.eqb c NUL then EmptyString else String c (cstr rest)
  end.

(** uORB::Manager::startsWith *)
Fixpoint strncmp_eq (pre str : string) : bool :=
  match pre, str with
  | EmptyString, _ => true
  | String a pre', String b str' => Ascii.eqb a b && strncmp_eq pre' str'
  | String _ _, EmptyString => false
  end.

Definition startsWith (pre str : string) : bool :=
  let lenpre := String.length pre in
  let lenstr := String.length str in
  if (lenstr <? lenpre)%nat then false else strncmp_eq pre str.

(** uORB::Manager::strTrim: the pointer moves past spaces and tabs. *)
Fixpoint strTrim (str : string) : string :=
  match str with
  | String c rest => if is_blank c then strTrim rest else str
  | EmptyString => str
  end.

(** [line + strlen(prefix)] *)
Fixpoint advance (n : nat) (s : string) : string :=
  match n, s with
  | S k, String _ rest => advance k rest
  | _, _ => s
  end.

(** The [for] loop over [topics]: every ',' or newline that ends a
    non-empty stretch is overwritten with NUL and counted. *)
Fixpoint cut_topics (topics : string) (topic_len : nat) : string * nat :=
  match topics with
  | EmptyString => (EmptyString, O)
  | String c rest =>
      if Ascii.eqb c COMMA || Ascii.eqb c LF then
        let r := cut_topics rest 0 in
        if (0 <? topic_len)%nat then (String NUL (fst r), S (snd r))
        else (String c (fst r), snd r)
      else
        let r := cut_topics rest (S topic_len) in
        (String c (fst r), snd r)
  end.

Lemma strTrim_length (s : string) :
  (String.length (strTrim s) <= String.length s)%nat.
Proof.
  induction s as [|c s IH]; simpl; [lia|].
  destruct (is_blank c); simpl; lia.
Qed.

(** The [while (topic < num_topics)] loop: [topics] is the buffer from the
    pointer on, [todo] is [num_topics - topic].  The pointer never reaches
    the end of the buffer while entries are missing (see
    [collect_topics_in_bounds]); that case yields no entry. *)
Equations? collect_topics (topics : string) (todo : nat) : list string
    by wf (String.length topics) lt :=
  collect_topics _ O := [];
  collect_topics EmptyString (S _) := [];
  collect_topics (String c rest) (S k) with Ascii.eqb c NUL => {
    | true => cstr (strTrim rest) :: collect_topics (strTrim rest) k;
    | false => collect_topics rest (S k) }.
Proof.
  all: pose proof (strTrim_length rest); simpl; lia.
Qed.

(** The nullable members of the rule while the file is read. *)
Record RawRule := {
  raw_topics : option (list string);
  raw_module_name : option string;
  raw_ignore_other_topics : bool
}.

Definition restrict_topics_str : string := "restrict_topics:".
Definition module_str : string := "module:".
Definition ignore_others : string := "ignore_others:".

(** The branch for a "restrict_topics:" line. *)
Definition read_topics (line : string) : option (list string) :=
  let start := strTrim (advance (String.length restrict_topics_str) line) in
  let cut := cut_topics start 0 in
  let topics := fst cut in
  let num_topics := snd cut in
  if (0 <? num_topics)%nat then
    let topics := strTrim topics in
    Some (cstr topics :: collect_topics topics (num_topics - 1))
  else None.

(** The branch for a "module:" line. *)
Fixpoint chop_newline (start : string) : string :=
  match start with
  | EmptyString => EmptyString
  | String c EmptyString => if Ascii.eqb c LF then EmptyString else start
  | String c rest => String c (chop_newline rest)
  end.

Definition read_module (line : string) : string :=
  chop_newline (strTrim (advance (String.length module_str) line)).

(** One iteration of the [while (fgets ...)] loop body. *)
Definition read_line (line : string) (st : Z * RawRule) : Z * RawRule :=
  let rule := snd st in
  if (String.length line <? 2)%nat
     || match line with String c _ => Ascii.eqb c "#"%char | _ => false end
  then st
  else if startsWith restrict_topics_str line then
    match read_topics line with
    | Some l =>
        (fst st, {| raw_topics := Some l;
                    raw_module_name := raw_module_name rule;
                    raw_ignore_other_topics := raw_ignore_other_topics rule |})
    | None => st
    end
  else if startsWith module_str line then
    (fst st, {| raw_topics := raw_topics rule;
                raw_module_name := Some (read_module line);
                raw_ignore_other_topics := raw_ignore_other_topics rule |})
  else if startsWith ignore_others line then
    let start := strTrim (advance (String.length ignore_others) line) in
    if startsWith "true" start then
      (fst st, {| raw_topics := raw_topics rule;
                  raw_module_name := raw_module_name rule;
                  raw_ignore_other_topics := true |})
    else st
  else (- EINVAL, rule).

(** [while (fgets(line, line_len, fp) && ret == OK)]; [lines] holds what the
    successive [fgets] calls store in [line]. *)
Fixpoint read_lines (lines : list string) (st : Z * RawRule) : Z * RawRule :=
  match lines with
  | [] => st
  | line :: rest =>
      if fst st =? OK then read_lines rest (read_line line st) else st
  end.

(** uORB::Manager::readPublisherRulesFromFile, for a file that [fopen]
    opened ([inr]) or refused with the given errno ([inl]). *)
Definition readPublisherRulesFromFile (file : Z + list string) (rule : RawRule)
    : Z * RawRule :=
  match file with
  | inl e => (- e, rule)
  | inr lines =>
      let init := {| raw_topics := None; raw_module_name := None;
                     raw_ignore_other_topics := false |} in
      let st := read_lines lines (OK, init) in
      if (fst st =? OK)
         && (negb (is_Some_b (raw_module_name (snd st)))
             || negb (is_Some_b (raw_topics (snd st))))
      then (- EINVAL, snd st)
      else st
  end.


(** Number of NUL characters in a buffer. *)
Fixpoint nuls (p : string) : nat :=
  match p with
  | EmptyString => O
  | String c rest => ((if Ascii.eqb c NUL then 1 else 0) + nuls rest)%nat
  end.

(** *** Shapes of the lines, used to state the properties *)

Fixpoint all_chars (P : ascii -> bool) (s : string) : bool :=
  match s with
  | EmptyString => true
  | String c rest => P c && all_chars P rest
  end.

Definition blank_string (ws : string) : bool := all_chars is_blank ws.

Definition is_separator (c : ascii) : bool :=
  Ascii.eqb c COMMA || Ascii.eqb c LF.

Definition no_separator (c : ascii) : bool :=
  negb (is_separator c) && negb (Ascii.eqb c NUL).

(** A topic name as the rules file means it: not empty, not starting with a
    blank, free of ',', newline and NUL (blanks further on are allowed). *)
Definition plain_topic (t : string) : bool :=
  match t with
  | EmptyString => false
  | String c _ => negb (is_blank c) && all_chars no_separator t
  end.

Definition nl : string := String LF EmptyString.

(** The value of a "restrict_topics:" line listing the topics [snd] of the
    items, each preceded by the blanks [fst] of its item. *)
Fixpoint topics_value (items : list (string * string)) : string :=
  match items with
  | [] => EmptyString
  | [(ws, t)] => ws ++ t ++ nl
  | (ws, t) :: rest => ws ++ t ++ String COMMA (topics_value rest)
  end.

Definition bare (items : list (string * string)) : list (string * string) :=
  map (fun it => (EmptyString, snd it)) items.

Definition well_formed_item (it : string * string) : bool :=
  blank_string (fst it) && plain_topic (snd it).

Definition module_line (ws v : string) : string := module_str ++ ws ++ v.

Definition topics_line (items : list (string * string)) : string :=
  restrict_topics_str ++ topics_value items.

(** The buffer after the cutting loop: each item followed by NUL. *)
Fixpoint cut_image (items : list (string * string)) : string :=
  match items with
  | [] => EmptyString
  | (ws, t) :: rest => ws ++ t ++ String NUL (cut_image rest)
  end.


(** *** Kinds of lines, used to state the properties *)

Definition leading_blank (s : string) : bool :=
  match s with String c _ => is_blank c | EmptyString => false end.

(** A line the loop passes over: shorter than two characters, or a comment. *)
Definition skipped_line (l : string) : bool :=
  (String.length l <? 2)%nat
  || match l with String c _ => Ascii.eqb c "#"%char | _ => false end.

(** A line that is not passed over and starts with none of the three keys. *)
Definition unknown_line (l : string) : bool :=
  negb (skipped_line l)
  && negb (startsWith restrict_topics_str l)
  && negb (startsWith module_str l)
  && negb (startsWith ignore_others l).

(** The rule as the function sets it before the first line is read. *)
Definition init_rule : RawRule :=
  {| raw_topics := None; raw_module_name := None;
     raw_ignore_other_topics := false |}.

Definition topics_ok (r : RawRule) : Prop :=
  match raw_topics r with Some l => l <> [] | None => True end.

End Rules.

(** uORB::Manager::Manager: the rule is in force only when the file was
    read without error, in which case neither member is null. *)
Definition Manager_ctor (cfg : BuildConfig) (file : Z + list string) : Manager :=
  let none := {| Rules.raw_topics := None; Rules.raw_module_name := None;
                 Rules.raw_ignore_other_topics := false |} in
  let r := if ORB_USE_PUBLISHER_RULES cfg
           then Rules.readPublisherRulesFromFile file none
           else (-1, none) in
  {| _has_publisher_rules := (fst r =? OK);
     _publisher_rule :=
       {| topics := default [] (Rules.raw_topics (snd r));
          module_name := default EmptyString (Rules.raw_module_name (snd r));
          ignore_other_topics := Rules.raw_ignore_other_topics (snd r) |};
     _remote_topics := ∅ |}.

Definition with_errno {W} (s : state W) (e : Z) : state W :=
  Build_state e (manager s) (devices s).

(** ** The remote bridge side of the manager (ORB_COMMUNICATOR)

    [get_device_master] and the [process_*] handlers reach the device master
    and single nodes directly; what they call there is the interface
    [MasterLayer].  The two further data members they use are kept in
    [Bridge], next to the state of the functions above. *)

Class MasterLayer (W : Type) := {
  (* uORB::Utils::node_mkpath(buf, orbMsgName): return value and buf *)
  node_mkpath_name : string -> Z * string;
  (* new DeviceMaster(): whether storage was obtained *)
  DeviceMaster_new : W -> bool * W;
  DeviceMaster_init : W -> Z * W;
  DeviceMaster_delete : W -> W;
  (* DeviceMaster::getDeviceNode(nodepath): [None] for a null pointer *)
  getDeviceNode : string -> W -> option string;
  DeviceNode_process_add_subscription : string -> Z -> W -> W;
  DeviceNode_process_remove_subscription : string -> W -> W;
  DeviceNode_process_received_message : string -> Z -> payload -> W -> W
}.

Record Bridge (W : Type) := {
  base : state W;
  _remote_subscriber_topics : gset string;
  _device_master : bool            (* whether the pointer is non-null *)
}.
Arguments base {W} b.
Arguments _remote_subscriber_topics {W} b.
Arguments _device_master {W} b.
Arguments Build_Bridge {W} base _remote_subscriber_topics _device_master.

Section BridgeCode.

Context {W : Type} {L : MasterLayer W}.

(** uORB::Manager::get_device_master; the result tells whether the pointer
    returned is non-null. *)
Definition get_device_master (b : Bridge W) : bool * Bridge W :=
  if negb (_device_master b) then
    let s := base b in
    let alloc := DeviceMaster_new (devices s) in
    if fst alloc then
      let init := DeviceMaster_init (snd alloc) in
      let ret_ := fst init in
      if negb (ret_ =? OK) then
        (false,
         Build_Bridge
           (Build_state (- ret_) (manager s) (DeviceMaster_delete (snd init)))
           (_remote_subscriber_topics b) false)
      else
        (true,
         Build_Bridge (Build_state (errno s) (manager s) (snd init))
           (_remote_subscriber_topics b) true)
    else
      (false,
       Build_Bridge (Build_state ENOMEM (manager s) (snd alloc))
         (_remote_subscriber_topics b) false)
  else (true, b).

Definition with_devices (b : Bridge W) (w : W) : Bridge W :=
  Build_Bridge (Build_state (errno (base b)) (manager (base b)) w)
    (_remote_subscriber_topics b) (_device_master b).

Definition with_subscribers (b : Bridge W) (s : gset string) : Bridge W :=
  Build_Bridge (base b) s (_device_master b).

(** uORB::Manager::process_add_subscription *)
Definition process_add_subscription (messageName : string) (msgRateInHz : Z)
    (b : Bridge W) : Z * Bridge W :=
  let rc := 0 in
  let b := with_subscribers b ({[ messageName ]} ∪ _remote_subscriber_topics b) in
  let mk := node_mkpath_name messageName in
  let dm := get_device_master b in
  let b := snd dm in
  if (fst mk =? OK) && fst dm then
    match getDeviceNode (snd mk) (devices (base b)) with
    | None => (rc, b)
    | Some node =>
        (rc, with_devices b
               (DeviceNode_process_add_subscription node msgRateInHz
                  (devices (base b))))
    end
  else (-1, b).

(** uORB::Manager::process_remove_subscription *)
Definition process_remove_subscription (messageName : string) (b : Bridge W)
    : Z * Bridge W :=
  let rc := -1 in
  let b := with_subscribers b (_remote_subscriber_topics b ∖ {[ messageName ]}) in
  let mk := node_mkpath_name messageName in
  let dm := get_device_master b in
  let b := snd dm in
  if (fst mk =? OK) && fst dm then
    match getDeviceNode (snd mk) (devices (base b)) with
    | None => (rc, b)
    | Some node =>
        (0, with_devices b
              (DeviceNode_process_remove_subscription node (devices (base b))))
    end
  else (rc, b).

(** uORB::Manager::process_received_message *)
Definition process_received_message (messageName : string) (length : Z)
    (data : payload) (b : Bridge W) : Z * Bridge W :=
  let rc := -1 in
  let mk := node_mkpath_name messageName in
  let dm := get_device_master b in
  let b := snd dm in
  if (fst mk =? OK) && fst dm then
    match getDeviceNode (snd mk) (devices (base b)) with
    | None => (rc, b)
    | Some node =>
        (0, with_devices b
              (DeviceNode_process_received_message node length data
                 (devices (base b))))
    end
  else (rc, b).

(** uORB::Manager::is_remote_subscriber_present *)
Definition is_remote_subscriber_present (messageName : string) (b : Bridge W)
    : bool :=
  bool_decide (messageName ∈ _remote_subscriber_topics b).

End BridgeCode.

(** ** device::CDev::lock (uORB/cdev/CDev.hpp)

    [waits] lists what the successive calls of nxsem_wait return; the result
    is what is left of it when lock returns, [None] while it is still
    looping at the end of the list. *)
Fixpoint CDev_lock (waits : list Z) : option (list Z) :=
  match waits with
  | [] => None
  | r :: rest => if negb (r =? 0) then CDev_lock rest else Some rest
  end.

(** A member function that leaves the manager's data members alone. *)
Definition keeps_manager {W A} (m : M W A) : Prop :=
  forall st, manager (snd (m st)) = manager st.

(** How node_open can end once its arguments passed the checks: with a
    descriptor, or with -1 and errno EIO or the negated code of node_mkpath. *)
Definition open_failed {W} {D : DeviceLayer W} (meta : option orb_metadata)
    (r : Z * option Z * state W) : Prop :=
  0 <= fst (fst r)
  \/ (fst (fst r) = -1
      /\ (errno (snd r) = EIO
          \/ exists inst, fst (node_mkpath meta inst) <> OK
                          /\ errno (snd r) = - fst (node_mkpath meta inst))).

(** An advertise of [meta] by the calling task is turned away: whatever the
    other arguments, orb_advertise_multi hands back the manager's own
    address and does nothing else. *)
Definition advertise_denied {W} {D : DeviceLayer W} (cfg : BuildConfig)
    (meta : orb_metadata) (st : state W) : Prop :=
  forall data instance priority queue_size,
    orb_advertise_multi cfg meta data instance priority queue_size st
    = (manager_instance, instance, st).

(** An advertise of [meta] by the calling task goes through to the node:
    whatever the other arguments, the call is node_open as advertiser, it
    returns the null handle when node_open fails, and it returns the handle
    the node gives for itself once the initial publish is accepted. *)
Definition advertise_allowed {W} {D : DeviceLayer W} (cfg : BuildConfig)
    (meta : orb_metadata) (st : state W) : Prop :=
  forall data instance priority queue_size,
    let p := node_open (Some meta) data true instance priority st in
    let fd := fst (fst p) in
    let r := orb_advertise_multi cfg meta data instance priority queue_size st in
    (fd = -1 -> r = (nullptr, snd (fst p), snd p))
    /\ (forall h,
          fd <> -1 ->
          let q := sys_ioctl fd (ORBIOCSETQUEUESIZE queue_size) (devices (snd p)) in
          let g := sys_ioctl fd ORBIOCGADVERTISER (snd q) in
          let w4 := snd (sys_close fd (snd g)) in
          let w5 := if ORB_COMMUNICATOR cfg
                    then DeviceNode_topic_advertised meta priority w4 else w4 in
          fst g = Ok 0 h ->
          fst (DeviceNode_publish meta h data w5) = Ok 0 tt ->
          fst r = (h, snd (fst p))).

(** ** The bridge interface on the modelled device layer *)

Module SpecMaster.
Import SpecDevice.

(** Modelled from the spec: the registry side of section 4.7.  A node is
    found by its canonical path; a received message is published on it; the
    initialisation of the master fails on a pending host fault. *)
#[export] Instance layer : MasterLayer World := {|
  node_mkpath_name :=
    fun name => mkpath (Some {| o_name := name; o_size := 0 |}) None;
  DeviceMaster_new := fun w => (true, w);
  DeviceMaster_init :=
    fun w => match host_faults w with
             | e :: rest => (- e, with_faults w rest)
             | [] => (OK, w)
             end;
  DeviceMaster_delete := fun w => w;
  getDeviceNode :=
    fun path w => match nodes w !! path with
                  | Some _ => Some path
                  | None => None
                  end;
  DeviceNode_process_add_subscription := fun _ _ w => w;
  DeviceNode_process_remove_subscription := fun _ w => w;
  DeviceNode_process_received_message :=
    fun node len data w =>
      snd (publish {| o_name := EmptyString; o_size := len |}
             (node_ptr node) (Some data) w)
|}.

End SpecMaster.

(** ** A driver that stores before it fails

    The manager takes what a failing ioctl left behind its pointer argument
    as it is.  This layer is the modelled one, except that its handler of
    ORBIOCUPDATED writes the flag and is then interrupted. *)

Module StoringDriver.
Import SpecDevice.

Definition ioctl {X} (fd : Z) (req : ioctl_req X) (w : World)
    : reply X * World :=
  match req in ioctl_req T return reply T * World with
  | ORBIOCUPDATED => (Err EINTR (Some true), w)
  | other => SpecDevice.ioctl fd other w
  end.

Definition layer : DeviceLayer World := {|
  TOPIC_MASTER_DEVICE_PATH := master_path;
  ORB_PRIO_DEFAULT := 75;
  node_mkpath := mkpath;
  px4_get_taskname := taskname;
  sys_stat := stat;
  sys_open := open;
  sys_close := close;
  sys_read := read;
  sys_ioctl := @ioctl;
  DeviceNode_publish := publish;
  DeviceNode_unadvertise := unadvertise;
  DeviceNode_topic_advertised := fun _ _ w => w
|}.

End StoringDriver.

(** ** Scenario data used by the concrete statements below *)

Module Scenario.
Import SpecDevice.

Definition nl : string := Rules.nl.

Definition cfg : BuildConfig :=
  {| ORB_USE_PUBLISHER_RULES := true; ORB_COMMUNICATOR := true |}.

(** Scenario 6 of the specification: the rules file of module "estimator". *)
Definition rules_file : Z + list string :=
  inr ["module: estimator" ++ nl; "restrict_topics: att" ++ nl;
       "ignore_others: true" ++ nl].

Definition no_rules_file : Z + list string := inl ENOENT.

Definition boot (task : string) (file : Z + list string) : state World :=
  Build_state 0 (Manager_ctor cfg file)
    {| taskname := task; now := 0; nodes := ∅; files := ∅;
       host_faults := [] |}.

Definition att : orb_metadata := {| o_name := "att"; o_size := 2 |}.
Definition imu : orb_metadata := {| o_name := "imu"; o_size := 2 |}.
Definition baro : orb_metadata := {| o_name := "baro"; o_size := 2 |}.
Definition sample : payload := [Byte.x01; Byte.x02].

(** A system without rules file, task "mavlink" running. *)
Definition st_boot : state World := boot "mavlink" no_rules_file.

(** "imu" advertised once (instance 0, queue size 1). *)
Definition st_imu : state World :=
  snd (orb_advertise_multi cfg imu (Some sample) None 75 1 st_boot).

(** ... and subscribed to; the subscriber holds descriptor 3. *)
Definition st_sub : state World := snd (orb_subscribe (Some imu) st_imu).

(** ... with one transient failure of the host-backed device pending. *)
Definition st_flaky : state World :=
  Build_state (errno st_sub) (manager st_sub)
    (with_faults (devices st_sub) [EINTR]).

(** Scenario 5 so far: "baro" subscribed to but never advertised; then a
    remote advertisement of "baro" arrives. *)
Definition st_latent : state World :=
  snd (process_remote_topic "baro" true
         (snd (orb_subscribe (Some baro) st_boot))).

(** A topic whose path is the master device's own. *)
Definition master_named : orb_metadata := {| o_name := "_obj_"; o_size := 2 |}.

(** A rules file with blanks in front of its values. *)
Definition example_lines : list string :=
  [Rules.module_line " " ("estimator" ++ nl)%string;
   Rules.topics_line [(" ", "att"); (" ", "imu")];
   ("ignore_others: true" ++ nl)%string].

(** The bridge members at start-up, on top of a manager state. *)
Definition bridge_of (st : state World) : Bridge World :=
  Build_Bridge st ∅ false.

End Scenario.

(** * Properties *)

Lemma findTopic_loop_In (l : list string) (t : string) :
  findTopic_loop l t = true <-> In t l.
Proof.
  induction l as [|x l IH]; simpl.
  - split; [discriminate | tauto].
  - destruct (String.eqb_spec x t) as [->|Hne].
    + split; auto.
    + rewrite IH. split; [auto | intros [H|H]; [congruence | exact H]].
Qed.

Lemma orb_advert_eqb_refl (h : orb_advert_t) : orb_advert_eqb h h = true.
Proof. destruct h; simpl; auto using String.eqb_refl. Qed.

Lemma denies_needs_rules cfg mgr prog topic :
  publisher_rule_denies cfg mgr prog topic = true ->
  ORB_USE_PUBLISHER_RULES cfg = true.
Proof. unfold publisher_rule_denies. destruct (ORB_USE_PUBLISHER_RULES cfg); auto. Qed.

(** Unfold the monad around one step of a member function. *)
Ltac mrun :=
  unfold bind, call, ret, get_manager, set_errno, get_errno, set_manager;
  cbn [devices errno manager fst snd rc_of stored].

Section ManagerFacts.

Context {W : Type} {D : DeviceLayer W}.

(** C1: an advertise that the publisher rules deny hands back the manager's
    own address as the publisher handle (not a null handle) and leaves the
    whole state as it was; every publish through that handle and its
    unadvertise return OK, again without touching the state (no sample is
    stored, no generation moves). *)
Theorem denied_advertise_yields_inert_sentinel
    (cfg : BuildConfig) (meta : orb_metadata) (data : option payload)
    (instance : option Z) (priority queue_size : Z) (st : state W) :
  publisher_rule_denies cfg (manager st) (px4_get_taskname (devices st))
    (o_name meta) = true ->
  orb_advertise_multi cfg meta data instance priority queue_size st
    = (manager_instance, instance, st)
  /\ manager_instance <> nullptr
  /\ (forall meta' data' (st' : state W),
        orb_publish cfg meta' manager_instance data' st' = (OK, st'))
  /\ (forall st' : state W,
        orb_unadvertise cfg manager_instance st' = (OK, st')).
Proof.
  intros Hdeny. pose proof (denies_needs_rules _ _ _ _ Hdeny) as Hrules.
  repeat split.
  - unfold orb_advertise_multi. now rewrite Hdeny.
  - discriminate.
  - intros. unfold orb_publish. now rewrite Hrules.
  - intros. unfold orb_unadvertise. now rewrite Hrules.
Qed.


(** C3 (as the code has it): with the path formatted, orb_exists answers OK
    exactly when (a) stat of the path returns 0, or the communicator is
    compiled in, stat returns -1 and the topic's name is among the remote
    topics, and (b) it is not so that the path opens and the node answers
    the is-published request with "not published".  The remote topics are
    looked at only after a failed stat, so a node that only a subscriber
    created answers "does not exist" whatever was advertised remotely; a path
    that does not open, or a node that fails the request, counts as
    existing. *)
Theorem orb_exists_local_else_remote
    (cfg : BuildConfig) (m : orb_metadata) (instance : Z) (st : state W)
    (path : string) :
  node_mkpath (Some m) (Some instance) = (OK, path) ->
  let s := sys_stat path (devices st) in
  let o := sys_open path 0 (snd s) in
  let fd := rc_of (fst o) in
  let q := sys_ioctl fd ORBIOCISPUBLISHED (snd o) in
  let there := rc_of (fst s) = 0 in
  let remote := ORB_COMMUNICATOR cfg = true /\ rc_of (fst s) = -1
                /\ o_name m ∈ _remote_topics (manager st) in
  let unpublished := 0 <= fd /\ fst q = Ok 0 0 in
  fst (orb_exists cfg (Some m) instance st) = OK
  <-> (there \/ remote) /\ ~ unpublished.
Proof.
  intros Hmk. cbv zeta. unfold orb_exists. mrun. rewrite Hmk.
  cbn [fst snd]. change (negb (OK =? OK)) with false. cbv beta iota.
  destruct (sys_stat path (devices st)) as [rs w1].
  cbv beta iota. cbn [fst snd devices manager].
  set (ret0 := rc_of rs).
  set (ret1 := if ORB_COMMUNICATOR cfg
               then if (ret0 =? -1)
                       && negb (bool_decide (_remote_topics (manager st) = ∅))
                    then if bool_decide (o_name m ∈ _remote_topics (manager st))
                         then OK else -1
                    else ret0
               else ret0).
  assert (Hret1 : ret1 = 0 <->
            ret0 = 0 \/ (ORB_COMMUNICATOR cfg = true /\ ret0 = -1
                         /\ o_name m ∈ _remote_topics (manager st))).
  { subst ret1. destruct (ORB_COMMUNICATOR cfg).
    - destruct (Z.eqb_spec ret0 (-1)) as [Hm1|Hm1]; cbn [andb].
      + destruct (bool_decide_reflect (_remote_topics (manager st) = ∅))
          as [Hempty|Hne]; cbn [negb].
        * split; [lia|]. intros [|(_ & _ & Hin)]; [lia|].
          rewrite Hempty in Hin. set_solver.
        * destruct (bool_decide_reflect
                      (o_name m ∈ _remote_topics (manager st))) as [Hin|Hnin].
          -- split; [auto | reflexivity].
          -- split; [discriminate|]. intros [|(_ & _ & Hin)]; [lia | tauto].
      + split; [auto|]. intros [|(_ & ? & _)]; [assumption | contradiction].
    - split; [auto|]. intros [|(? & _)]; [assumption | discriminate]. }
  unfold OK.
  destruct (Z.eqb_spec ret1 0) as [H0|H0];
    cbv beta iota; cbn [fst snd devices errno manager].
  - destruct (sys_open path 0 w1) as [ro w2].
    cbv beta iota. cbn [fst snd devices errno manager].
    set (fd := rc_of ro).
    destruct (Z.geb_spec fd 0) as [Hfd|Hfd];
      cbv beta iota; cbn [fst snd devices errno manager].
    + destruct (sys_ioctl fd ORBIOCISPUBLISHED w2) as [rq w3].
      cbv beta iota. cbn [fst snd devices errno manager].
      destruct (sys_close fd w3) as [rc w4].
      cbv beta iota. cbn [fst snd]. rewrite H0.
      destruct rq as [rcq v|e x].
      * destruct (Z.eqb_spec rcq 0) as [->|Hrc]; cbn [andb].
        -- destruct (Z.eqb_spec v 0) as [->|Hv].
           ++ split; [discriminate|]. intros [_ Hn]. exfalso. apply Hn.
              split; [lia | reflexivity].
           ++ split; [|reflexivity]. intros _. split; [now apply Hret1|].
              intros [_ [= Hv']]. contradiction.
        -- split; [|reflexivity]. intros _. split; [now apply Hret1|].
           intros [_ [= Hrc' _]]. contradiction.
      * split; [|reflexivity]. intros _. split; [now apply Hret1|].
        intros [_ Hq]. discriminate Hq.
    + cbn [fst]. rewrite H0. split; [|reflexivity].
      intros _. split; [now apply Hret1|]. intros [? _]. lia.
  - cbn [fst]. split; [intros; contradiction|].
    intros [Hor _]. apply Hret1 in Hor. contradiction.
Qed.

(** C4 (as the code has it): on a device that hands back the interval it
    was given, a successful set_interval(v) passes v*1000 reduced modulo 2^32
    to the device, and the following get_interval returns that number of
    microseconds divided by 1000.  This is v as long as v*1000 stays below
    2^32, and it differs from v for every v from there on. *)
Theorem interval_roundtrip_in_range
    (handle v junk : Z) (st : state W) :
  (forall x w w',
     sys_ioctl handle (ORBIOCSETINTERVAL x) w = (Ok 0 tt, w') ->
     exists w'', sys_ioctl handle ORBIOCGETINTERVAL w' = (Ok 0 x, w'')) ->
  0 <= v ->
  fst (orb_set_interval handle v st) = OK ->
  let us := (v * 1000) mod UINT_MODULUS in
  let got := orb_get_interval handle junk (snd (orb_set_interval handle v st)) in
  (exists w', sys_ioctl handle (ORBIOCSETINTERVAL us) (devices st)
              = (Ok 0 tt, w'))
  /\ fst got = (OK, us / 1000)
  /\ (v * 1000 < UINT_MODULUS -> us = v * 1000 /\ fst got = (OK, v))
  /\ (UINT_MODULUS <= v * 1000 -> snd (fst got) <> v).
Proof.
  intros Hdev Hv. unfold orb_set_interval, orb_get_interval, to_unsigned. mrun.
  destruct (sys_ioctl handle (ORBIOCSETINTERVAL ((v * 1000) mod UINT_MODULUS))
              (devices st)) as [r w'] eqn:Hset.
  destruct r as [rc []|e x]; cbn [fst snd rc_of]; [|discriminate].
  intros ->. cbv zeta.
  destruct (Hdev _ _ _ Hset) as [w'' Hget]. cbn [devices]. rewrite Hget.
  cbn [fst snd rc_of stored].
  split; [now exists w'|]. split; [reflexivity|]. split.
  - intros Hrange. rewrite (Z.mod_small (v * 1000)) by lia.
    split; [reflexivity|]. f_equal. apply Z.div_mul. lia.
  - intros Hwrap. unfold UINT_MODULUS in *.
    pose proof (Z.mod_pos_bound (v * 1000) (2 ^ 32) ltac:(lia)) as Hb.
    assert ((v * 1000) mod 2 ^ 32 / 1000 < v); [|lia].
    apply Z.div_lt_upper_bound; lia.
Qed.




(** C6 (as the code has it): node_open, orb_subscribe and
    orb_subscribe_multi with a null descriptor return -1 with errno ENOENT;
    an advertiser's node_open with a null payload returns -1 with errno
    EINVAL, and so an advertise with a null payload that the publisher rules
    let pass returns the null handle with errno EINVAL.  Nothing else in
    the state changes. *)
Theorem null_descriptor_is_ENOENT_null_payload_is_EINVAL
    (cfg : BuildConfig) (st : state W) :
  (forall data advertiser instance priority,
     node_open None data advertiser instance priority st
       = (-1, instance, with_errno st ENOENT))
  /\ orb_subscribe None st = (-1, with_errno st ENOENT)
  /\ (forall instance,
        orb_subscribe_multi None instance st = (-1, with_errno st ENOENT))
  /\ (forall m instance priority,
        node_open (Some m) None true instance priority st
          = (-1, instance, with_errno st EINVAL))
  /\ (forall m instance priority queue_size,
        publisher_rule_denies cfg (manager st) (px4_get_taskname (devices st))
          (o_name m) = false ->
        orb_advertise_multi cfg m None instance priority queue_size st
          = (nullptr, instance, with_errno st EINVAL)).
Proof.
  repeat split; intros; try reflexivity.
  match goal with
  | Hgate : publisher_rule_denies _ _ _ _ = false |- _ =>
      unfold orb_advertise_multi; rewrite Hgate
  end.
  reflexivity.
Qed.


(** C8 (as the code has it): orb_copy issues exactly one read.  A read that
    fails makes it return -1 with errno as the read left it; a read of
    another length than the payload size makes it return -1 with errno EIO;
    a read of the full payload makes it return OK. *)
Theorem orb_copy_reads_once
    (meta : orb_metadata) (handle : Z) (st : state W) :
  let r := fst (sys_read handle (o_size meta) (devices st)) in
  let st' := snd (orb_copy meta handle st) in
  devices st' = snd (sys_read handle (o_size meta) (devices st))
  /\ (forall e x, r = Err e x ->
        fst (fst (orb_copy meta handle st)) = -1 /\ errno st' = e)
  /\ (forall n x, r = Ok n x -> 0 <= n -> n <> o_size meta ->
        fst (fst (orb_copy meta handle st)) = -1 /\ errno st' = EIO)
  /\ (forall x, r = Ok (o_size meta) x -> 0 <= o_size meta ->
        fst (orb_copy meta handle st) = (OK, Some x) /\ errno st' = errno st).
Proof.
  intros r st'. subst r st'. unfold orb_copy. mrun.
  destruct (sys_read handle (o_size meta) (devices st)) as [r w].
  cbn [fst snd]. split; [|split; [|split]].
  - destruct r as [n x|e x]; cbn [rc_of].
    + destruct (n <? 0); [reflexivity|].
      destruct (n =? o_size meta); reflexivity.
    + reflexivity.
  - intros e x ->. split; reflexivity.
  - intros n x -> Hn Hne. cbn [rc_of stored].
    destruct (Z.ltb_spec n 0); [lia|].
    destruct (Z.eqb_spec n (o_size meta)); [congruence|]. split; reflexivity.
  - intros x -> Hn. cbn [rc_of stored].
    destruct (Z.ltb_spec (o_size meta) 0); [lia|].
    rewrite Z.eqb_refl. split; reflexivity.
Qed.

End ManagerFacts.

(** What the nested tests of the gate come to once a rule is loaded. *)
Lemma publisher_rule_denies_cases
    (cfg : BuildConfig) (mgr : Manager) (prog topic : string) :
  ORB_USE_PUBLISHER_RULES cfg = true ->
  _has_publisher_rules mgr = true ->
  let rule := _publisher_rule mgr in
  let denied := publisher_rule_denies cfg mgr prog topic in
  (module_name rule = prog -> ignore_other_topics rule = true ->
     (denied = false <-> In topic (topics rule)))
  /\ (module_name rule <> prog -> (denied = true <-> In topic (topics rule)))
  /\ (module_name rule = prog -> ignore_other_topics rule = false ->
        denied = false).
Proof.
  intros Hcfg Hhas rule denied. subst denied.
  unfold publisher_rule_denies. rewrite Hcfg, Hhas. fold rule.
  pose proof (findTopic_loop_In (topics rule) topic) as Hin.
  unfold findTopic.
  destruct (String.eqb_spec (module_name rule) prog) as [Heq|Hne].
  - split; [|split]; [| congruence |].
    + intros _ Hign. rewrite Hign.
      destruct (findTopic_loop (topics rule) topic); simpl.
      * split; [intros _; now apply Hin | reflexivity].
      * split; [discriminate | intros Hi; apply Hin in Hi; discriminate].
    + intros _ Hign. now rewrite Hign.
  - split; [|split]; [congruence | | congruence].
    intros _. destruct (findTopic_loop (topics rule) topic).
    + split; [intros _; now apply Hin | reflexivity].
    + split; [discriminate | intros Hi; apply Hin in Hi; discriminate].
Qed.

Section GateFacts.

Context {W : Type} {D : DeviceLayer W}.

Lemma denied_by_the_gate (cfg : BuildConfig) (meta : orb_metadata) (st : state W) :
  publisher_rule_denies cfg (manager st) (px4_get_taskname (devices st))
    (o_name meta) = true ->
  advertise_denied cfg meta st.
Proof.
  intros Hdeny data instance priority queue_size.
  unfold orb_advertise_multi. now rewrite Hdeny.
Qed.

Lemma passed_by_the_gate (cfg : BuildConfig) (meta : orb_metadata) (st : state W) :
  publisher_rule_denies cfg (manager st) (px4_get_taskname (devices st))
    (o_name meta) = false ->
  advertise_allowed cfg meta st.
Proof.
  intros Hgate data instance priority queue_size. cbv zeta.
  unfold orb_advertise_multi. rewrite Hgate. unfold bind. cbv beta.
  destruct (node_open (Some meta) data true instance priority st)
    as [[fd inst'] st1].
  cbn [fst snd]. split.
  - intros ->. reflexivity.
  - intros h Hfd Hg Hpub.
    destruct (Z.eqb_spec fd (-1)) as [|_]; [congruence|].
    mrun.
    destruct (sys_ioctl fd (ORBIOCSETQUEUESIZE queue_size) (devices st1))
      as [rq w2]. cbn [snd devices] in *.
    destruct (sys_ioctl fd ORBIOCGADVERTISER w2) as [rg w3].
    cbn [fst snd devices] in *. subst rg.
    destruct (sys_close fd w3) as [rc w4]. cbn [fst snd devices] in *.
    change (0 =? -1) with false. cbv iota. unfold orb_publish.
    destruct (ORB_COMMUNICATOR cfg); cbn [devices errno manager];
      (destruct (ORB_USE_PUBLISHER_RULES cfg && orb_advert_eqb h manager_instance);
       [reflexivity|]);
      mrun;
      match goal with
      | |- context [DeviceNode_publish meta h data ?w] =>
          destruct (DeviceNode_publish meta h data w) as [rp w6]
      end;
      cbn [fst] in Hpub; subst rp; reflexivity.
Qed.

Lemma allowed_is_not_denied (cfg : BuildConfig) (meta : orb_metadata) (st : state W) :
  advertise_allowed cfg meta st -> advertise_denied cfg meta st -> False.
Proof.
  intros Ha Hd.
  specialize (Ha None None 0 0). specialize (Hd None None 0 0).
  cbv zeta in Ha. destruct Ha as [Ha _].
  rewrite Hd in Ha. specialize (Ha eq_refl). discriminate Ha.
Qed.

(** C2: with a rule loaded, orb_advertise_multi treats the calling task
    (px4_get_taskname) as follows.  When the task is the rule's module and
    ignore_other_topics is set, the advertise goes through to the node exactly
    when the topic is listed, and is turned away (the manager's address is
    returned, nothing is done) exactly when it is not; when the task is not
    the rule's module, it is turned away exactly when the topic is listed and
    goes through exactly when it is not; in the remaining case it goes
    through. *)
Theorem publisher_rule_gate
    (cfg : BuildConfig) (meta : orb_metadata) (st : state W) :
  ORB_USE_PUBLISHER_RULES cfg = true ->
  _has_publisher_rules (manager st) = true ->
  let rule := _publisher_rule (manager st) in
  let prog_name := px4_get_taskname (devices st) in
  let listed := In (o_name meta) (topics rule) in
  (module_name rule = prog_name -> ignore_other_topics rule = true ->
     (advertise_allowed cfg meta st <-> listed)
     /\ (advertise_denied cfg meta st <-> ~ listed))
  /\ (module_name rule <> prog_name ->
     (advertise_denied cfg meta st <-> listed)
     /\ (advertise_allowed cfg meta st <-> ~ listed))
  /\ (module_name rule = prog_name -> ignore_other_topics rule = false ->
        advertise_allowed cfg meta st /\ ~ advertise_denied cfg meta st).
Proof.
  intros Hcfg Hhas rule prog_name listed.
  destruct (publisher_rule_denies_cases cfg (manager st) prog_name (o_name meta)
              Hcfg Hhas) as (Hsame & Hother & Hrest).
  fold rule in Hsame, Hother, Hrest. fold listed in Hsame, Hother.
  pose proof (denied_by_the_gate cfg meta st) as Hd.
  pose proof (passed_by_the_gate cfg meta st) as Ha.
  pose proof (allowed_is_not_denied cfg meta st) as Hx.
  fold prog_name in Hd, Ha.
  destruct (publisher_rule_denies cfg (manager st) prog_name (o_name meta));
    split; [|split| |split].
  - intros Hm Hi. specialize (Hsame Hm Hi).
    assert (Hnl : ~ listed) by (intros Hl; apply Hsame in Hl; discriminate).
    split; split; intros; auto; exfalso; eauto.
  - intros Hm. specialize (Hother Hm).
    assert (Hl : listed) by now apply Hother.
    split; split; intros; auto; exfalso; eauto.
  - intros Hm Hi. specialize (Hrest Hm Hi). discriminate.
  - intros Hm Hi. specialize (Hsame Hm Hi).
    assert (Hl : listed) by now apply Hsame.
    split; split; intros; auto; exfalso; eauto.
  - intros Hm. specialize (Hother Hm).
    assert (Hnl : ~ listed) by (intros Hl; apply Hother in Hl; discriminate).
    split; split; intros; auto; exfalso; eauto.
  - intros Hm Hi. split; [auto|]. intros Hden. eauto.
Qed.

End GateFacts.

(** ** The scenarios, on the device layer modelled from the specification *)

Section Concrete.
Import SpecDevice Scenario.

(** On this layer the interval handed to a subscriber is handed back. *)
Lemma spec_device_keeps_interval (handle x : Z) (w w' : World) :
  sys_ioctl handle (ORBIOCSETINTERVAL x) w = (Ok 0 tt, w') ->
  exists w'', sys_ioctl handle ORBIOCGETINTERVAL w' = (Ok 0 x, w'').
Proof.
  cbn [sys_ioctl layer]. unfold ioctl.
  destruct (files w !! handle) as [f|] eqn:Hf; [|discriminate].
  destruct (String.eqb (of_path f) master_path) eqn:Hm; [discriminate|].
  destruct (nodes w !! of_path f) as [n|] eqn:Hn; [|discriminate].
  cbn [node_ioctl]. intros [= <-]. exists (with_files w (<[handle := set_interval_us f x]> (files w))).
  cbn [files with_files nodes]. rewrite lookup_insert_eq.
  cbn [of_path set_interval_us]. rewrite Hm, Hn. reflexivity.
Qed.

(** On this layer a failing ioctl stores nothing through its argument. *)
Lemma spec_device_failed_ioctl_stores_nothing
    {X} (fd : Z) (req : ioctl_req X) (w : World) (e : Z) (x : option X) :
  fst (sys_ioctl fd req w) = Err e x -> x = None.
Proof.
  cbn [sys_ioctl layer]. unfold ioctl, node_ioctl, master_advertise.
  destruct req; repeat case_match; cbn [fst]; congruence.
Qed.

(** On this layer a refused queue size leaves the node as it was. *)
Lemma spec_device_refused_queue_size_changes_nothing
    (fd q : Z) (w w' : World) (e : Z) (x : option unit) :
  sys_ioctl fd (ORBIOCSETQUEUESIZE q) w = (Err e x, w') -> w' = w.
Proof.
  cbn [sys_ioctl layer]. unfold ioctl, node_ioctl.
  repeat case_match; congruence.
Qed.


Lemma denied_advertise_witness :
  let st := boot "mavlink" rules_file in
  publisher_rule_denies cfg (manager st) (px4_get_taskname (devices st))
    (o_name att) = true
  /\ orb_advertise_multi cfg att (Some sample) None 75 1 st
     = (manager_instance, None, st)
  /\ orb_publish cfg att manager_instance (Some sample) st = (OK, st)
  /\ orb_unadvertise cfg manager_instance st = (OK, st).
Proof.
  intros st.
  assert (Hdeny : publisher_rule_denies cfg (manager st)
                    (px4_get_taskname (devices st)) (o_name att) = true)
    by (vm_compute; reflexivity).
  pose proof (denied_advertise_yields_inert_sentinel cfg att (Some sample)
                None 75 1 st Hdeny) as (Hadv & _ & Hpub & Hun).
  exact (conj Hdeny (conj Hadv (conj (Hpub att (Some sample) st) (Hun st)))).
Defined.

Lemma publisher_rule_gate_witness :
  let st := boot "mavlink" rules_file in
  ORB_USE_PUBLISHER_RULES cfg = true
  /\ _has_publisher_rules (manager st) = true
  /\ module_name (_publisher_rule (manager st)) <> px4_get_taskname (devices st)
  /\ orb_advertise_multi cfg att (Some sample) None 75 1 st
     = (manager_instance, None, st)
  /\ fst (orb_advertise_multi cfg imu (Some sample) None 75 1 st)
     = (node_ptr "/obj/imu", None).
Proof.
  intros st.
  assert (H1 : ORB_USE_PUBLISHER_RULES cfg = true) by reflexivity.
  assert (H2 : _has_publisher_rules (manager st) = true)
    by (vm_compute; reflexivity).
  assert (Hne : module_name (_publisher_rule (manager st))
                <> px4_get_taskname (devices st))
    by (vm_compute; discriminate).
  destruct (proj1 (proj2 (publisher_rule_gate cfg att st H1 H2)) Hne)
    as [Hden _].
  destruct (proj1 (proj2 (publisher_rule_gate cfg imu st H1 H2)) Hne)
    as [_ Hall].
  split; [exact H1|]. split; [exact H2|]. split; [exact Hne|]. split.
  - apply Hden. vm_compute. auto.
  - assert (Hnl : ~ In (o_name imu) (topics (_publisher_rule (manager st)))).
    { vm_compute. intros [H|[]]. discriminate H. }
    pose proof (proj2 Hall Hnl (Some sample) None 75 1) as Hcall.
    cbv zeta in Hcall. destruct Hcall as [_ Hcall].
    apply (Hcall (node_ptr "/obj/imu")).
    + vm_compute. discriminate.
    + vm_compute. reflexivity.
    + vm_compute. reflexivity.
Defined.





(** C3, as stated, fails: with a node that only a subscriber created and a
    remote advertisement of the same name on record, orb_exists answers -1
    although the right-hand side of the equivalence holds. *)
Lemma exists_misses_remote_topic_behind_latent_node :
  "baro" ∈ _remote_topics (manager st_latent)
  /\ ~ (fst (orb_exists cfg (Some baro) 0 st_latent) = OK <->
        is_published (devices st_latent) baro 0 = true
        \/ o_name baro ∈ _remote_topics (manager st_latent)).
Proof.
  assert (Hin : "baro" ∈ _remote_topics (manager st_latent)).
  { apply (bool_decide_unpack _). vm_compute. exact I. }
  split; [exact Hin|].
  intros [_ Hback]. specialize (Hback (or_intror Hin)).
  vm_compute in Hback. discriminate.
Qed.

Lemma orb_exists_local_else_remote_witness :
  node_mkpath (Some baro) (Some 0) = (OK, "/obj/baro")
  /\ fst (orb_exists cfg (Some baro) 0 st_latent) <> OK
  /\ fst (orb_exists cfg (Some imu) 0 st_imu) = OK
  /\ fst (orb_exists cfg (Some att) 0
            (snd (process_remote_topic "att" true st_boot))) = OK.
Proof.
  assert (Hbaro : node_mkpath (Some baro) (Some 0) = (OK, "/obj/baro"))
    by (vm_compute; reflexivity).
  assert (Himu : node_mkpath (Some imu) (Some 0) = (OK, "/obj/imu"))
    by (vm_compute; reflexivity).
  assert (Hatt : node_mkpath (Some att) (Some 0) = (OK, "/obj/att"))
    by (vm_compute; reflexivity).
  split; [exact Hbaro|]. split; [|split].
  - pose proof (orb_exists_local_else_remote cfg baro 0 st_latent _ Hbaro) as H.
    cbv zeta in H. destruct H as [H _]. intros Hok.
    destruct (H Hok) as [_ Hn]. apply Hn. split.
    + vm_compute. discriminate.
    + vm_compute. reflexivity.
  - pose proof (orb_exists_local_else_remote cfg imu 0 st_imu _ Himu) as H.
    cbv zeta in H. destruct H as [_ H]. apply H. split.
    + left. vm_compute. reflexivity.
    + intros [_ Hq]. vm_compute in Hq. discriminate Hq.
  - pose proof (orb_exists_local_else_remote cfg att 0
                  (snd (process_remote_topic "att" true st_boot)) _ Hatt) as H.
    cbv zeta in H. destruct H as [_ H]. apply H. split.
    + right. split; [reflexivity|]. split; [vm_compute; reflexivity|].
      apply (bool_decide_unpack _). vm_compute. exact I.
    + intros [Hfd _]. vm_compute in Hfd. apply Hfd. reflexivity.
Defined.

(** C4, as stated, fails: 4294968 * 1000 wraps to 704 in an [unsigned], so
    get_interval after set_interval(4294968) yields 0. *)
Lemma interval_roundtrip_wraps :
  fst (orb_set_interval 3 4294968 st_sub) = OK
  /\ fst (orb_get_interval 3 0 (snd (orb_set_interval 3 4294968 st_sub)))
     = (OK, 0)
  /\ snd (fst (orb_get_interval 3 0 (snd (orb_set_interval 3 4294968 st_sub))))
     <> 4294968.
Proof.
  split; [|split]; try (vm_compute; reflexivity). vm_compute. discriminate.
Qed.

Lemma interval_roundtrip_witness :
  fst (orb_set_interval 3 10 st_sub) = OK
  /\ fst (orb_get_interval 3 0 (snd (orb_set_interval 3 10 st_sub))) = (OK, 10)
  /\ fst (orb_set_interval 3 5000000 st_sub) = OK
  /\ snd (fst (orb_get_interval 3 0 (snd (orb_set_interval 3 5000000 st_sub))))
     <> 5000000.
Proof.
  assert (Hdev : forall x w w',
            sys_ioctl 3 (ORBIOCSETINTERVAL x) w = (Ok 0 tt, w') ->
            exists w'', sys_ioctl 3 ORBIOCGETINTERVAL w' = (Ok 0 x, w''))
    by (intros x w w'; apply spec_device_keeps_interval).
  assert (Hset : fst (orb_set_interval 3 10 st_sub) = OK)
    by (vm_compute; reflexivity).
  assert (Hset' : fst (orb_set_interval 3 5000000 st_sub) = OK)
    by (vm_compute; reflexivity).
  split; [exact Hset|]. split; [|split; [exact Hset'|]].
  - pose proof (interval_roundtrip_in_range 3 10 0 st_sub Hdev
                  ltac:(lia) Hset) as H.
    cbv zeta in H. destruct H as (_ & _ & H & _).
    apply H. vm_compute. reflexivity.
  - pose proof (interval_roundtrip_in_range 3 5000000 0 st_sub Hdev
                  ltac:(lia) Hset') as H.
    cbv zeta in H. destruct H as (_ & _ & _ & H).
    apply H. vm_compute. discriminate.
Defined.



(** C6, as stated, fails: a subscribe with a null descriptor sets errno to
    ENOENT, not EINVAL; and an advertise with a null payload that the
    publisher rules deny returns the manager's address, not an error. *)
Lemma null_descriptor_is_not_EINVAL :
  fst (orb_subscribe None st_boot) = -1
  /\ errno (snd (orb_subscribe None st_boot)) = ENOENT
  /\ errno (snd (orb_subscribe None st_boot)) <> EINVAL
  /\ fst (fst (orb_advertise_multi cfg att None None 75 1
                 (boot "mavlink" rules_file))) = manager_instance.
Proof.
  repeat split; try (vm_compute; reflexivity). vm_compute. discriminate.
Qed.

Lemma null_payload_witness :
  let st := boot "mavlink" rules_file in
  publisher_rule_denies cfg (manager st) (px4_get_taskname (devices st))
    (o_name imu) = false
  /\ orb_advertise_multi cfg imu None None 75 1 st
     = (nullptr, None, with_errno st EINVAL).
Proof.
  intros st.
  assert (Hgate : publisher_rule_denies cfg (manager st)
                    (px4_get_taskname (devices st)) (o_name imu) = false)
    by (vm_compute; reflexivity).
  split; [exact Hgate|].
  exact (proj2 (proj2 (proj2 (proj2
    (null_descriptor_is_ENOENT_null_payload_is_EINVAL cfg st))))
      imu None 75 1 Hgate).
Defined.



(** C8, as stated, fails: with one transient read failure pending, orb_copy
    returns -1 with errno EINTR after a single read; the read it did not
    retry would have delivered the sample. *)
Lemma orb_copy_does_not_retry :
  let r := orb_copy imu 3 st_flaky in
  host_faults (devices st_flaky) = [EINTR]
  /\ fst (fst r) = -1
  /\ errno (snd r) = EINTR
  /\ errno (snd r) <> EIO
  /\ host_faults (devices (snd r)) = []
  /\ fst (orb_copy imu 3 (snd r)) = (OK, Some sample).
Proof.
  intros r. repeat split; try (vm_compute; reflexivity). vm_compute. discriminate.
Qed.

Lemma orb_copy_reads_once_witness :
  fst (sys_read 3 (o_size imu) (devices st_flaky)) = Err EINTR None
  /\ fst (fst (orb_copy imu 3 st_flaky)) = -1
  /\ errno (snd (orb_copy imu 3 st_flaky)) = EINTR.
Proof.
  assert (H : fst (sys_read 3 (o_size imu) (devices st_flaky)) = Err EINTR None)
    by (vm_compute; reflexivity).
  split; [exact H|].
  exact (proj1 (proj2 (orb_copy_reads_once imu 3 st_flaky)) EINTR None H).
Defined.
End Concrete.

(** ** The rules file *)

Section RulesFacts.
Import Rules.
Local Open Scope string_scope.
Local Arguments String.append !_ _ / : simpl nomatch.

Lemma strTrim_blanks ws s : blank_string ws = true -> strTrim (ws ++ s) = strTrim s.
Proof.
  induction ws as [|c ws IH]; simpl; [reflexivity|].
  intros [Hc Hws]%andb_prop. rewrite Hc. auto.
Qed.

Lemma app_assoc_s (a b c : string) : (a ++ b) ++ c = a ++ b ++ c.
Proof. induction a; simpl; congruence. Qed.

Lemma advance_app (p s : string) : advance (String.length p) (p ++ s) = s.
Proof. induction p; simpl; auto. Qed.

Lemma strncmp_eq_app (p s : string) : strncmp_eq p (p ++ s) = true.
Proof. induction p; simpl; auto. rewrite Ascii.eqb_refl. auto. Qed.

Lemma length_app_s (a b : string) :
  String.length (a ++ b) = (String.length a + String.length b)%nat.
Proof. induction a; simpl; auto. Qed.

Lemma startsWith_app (p s : string) : startsWith p (p ++ s) = true.
Proof.
  unfold startsWith. rewrite length_app_s.
  destruct (Nat.ltb_spec (String.length p + String.length s) (String.length p)); [lia|].
  apply strncmp_eq_app.
Qed.

Lemma chop_newline_app (s : string) : chop_newline (s ++ nl) = s.
Proof.
  induction s as [|c s IH]; [reflexivity|].
  simpl. rewrite IH. destruct (s ++ nl) eqn:E; [|reflexivity].
  destruct s; discriminate.
Qed.

(* module line *)
Lemma read_line_module_blanks ws v st :
  blank_string ws = true ->
  read_line (module_str ++ ws ++ v) st = read_line (module_str ++ v) st.
Proof.
  intros Hws. unfold read_line.
  assert (Hlen : forall s, (String.length (module_str ++ s) <? 2)%nat = false).
  { intros s. rewrite length_app_s. apply Nat.ltb_ge. simpl. lia. }
  rewrite !Hlen. cbn [orb].
  change (match module_str ++ ws ++ v with String c _ => Ascii.eqb c "#" | _ => false end) with false.
  change (match module_str ++ v with String c _ => Ascii.eqb c "#" | _ => false end) with false.
  cbv iota.
  assert (Hrt : forall s, startsWith restrict_topics_str (module_str ++ s) = false).
  { intros s. unfold startsWith. destruct (_ <? _)%nat; reflexivity. }
  rewrite !Hrt. rewrite !startsWith_app.
  unfold read_module. rewrite !advance_app. now rewrite strTrim_blanks.
Qed.

Lemma blank_no_separator c : is_blank c = true -> no_separator c = true.
Proof.
  unfold is_blank. intros [H|H]%orb_prop; apply Ascii.eqb_eq in H; subst c;
    reflexivity.
Qed.

Lemma all_chars_app P a b :
  all_chars P (a ++ b) = all_chars P a && all_chars P b.
Proof. induction a; simpl; auto. rewrite IHa. now rewrite andb_assoc. Qed.

Lemma all_chars_weaken (P Q : ascii -> bool) s :
  (forall c, P c = true -> Q c = true) ->
  all_chars P s = true -> all_chars Q s = true.
Proof.
  intros HPQ. induction s as [|c s IH]; simpl; auto.
  intros [Hc Hs]%andb_prop. rewrite (HPQ _ Hc). auto.
Qed.

Lemma cut_stretch s sep rest k :
  all_chars no_separator s = true -> is_separator sep = true ->
  (0 < k + String.length s)%nat ->
  cut_topics (s ++ String sep rest) k
  = (s ++ String NUL (fst (cut_topics rest 0)), S (snd (cut_topics rest 0))).
Proof.
  revert k. induction s as [|c s IH]; intros k Hs Hsep Hk; simpl in *.
  - unfold is_separator in Hsep. rewrite Hsep.
    destruct (Nat.ltb_spec 0 k); [reflexivity | lia].
  - apply andb_prop in Hs as [Hc Hs]. unfold no_separator in Hc.
    apply andb_prop in Hc as [Hc _]. apply negb_true_iff in Hc.
    unfold is_separator in Hc. rewrite Hc.
    rewrite (IH (S k)) by (auto; lia). reflexivity.
Qed.

Lemma plain_topic_inv t :
  plain_topic t = true ->
  exists c t', t = String c t' /\ is_blank c = false
               /\ all_chars no_separator t = true.
Proof.
  destruct t as [|c t']; simpl; [discriminate|].
  intros [Hb Hall]%andb_prop. apply negb_true_iff in Hb.
  exists c, t'. repeat split; auto.
Qed.

Lemma item_stretch ws t :
  well_formed_item (ws, t) = true ->
  all_chars no_separator (ws ++ t) = true
  /\ (0 < String.length (ws ++ t))%nat.
Proof.
  unfold well_formed_item. simpl. intros [Hws Ht]%andb_prop.
  destruct (plain_topic_inv _ Ht) as (c & t' & -> & _ & Hall).
  split.
  - rewrite all_chars_app, Hall, andb_true_r.
    eapply all_chars_weaken; [apply blank_no_separator | exact Hws].
  - rewrite length_app_s. simpl. lia.
Qed.

Lemma cut_items items :
  items <> [] -> forallb well_formed_item items = true ->
  cut_topics (topics_value items) 0 = (cut_image items, length items).
Proof.
  induction items as [|[ws t] rest IH]; [congruence|].
  intros _ Hwf. simpl in Hwf. apply andb_prop in Hwf as [Hit Hrest].
  destruct (item_stretch _ _ Hit) as [Hall Hlen].
  destruct rest as [|it2 rest'].
  - simpl topics_value. unfold nl. rewrite <- app_assoc_s.
    rewrite cut_stretch by (auto; simpl; lia).
    simpl. now rewrite app_assoc_s.
  - change (topics_value ((ws, t) :: it2 :: rest'))
      with (ws ++ t ++ String COMMA (topics_value (it2 :: rest'))).
    rewrite <- app_assoc_s.
    rewrite cut_stretch by (auto; simpl; lia).
    rewrite IH by (auto; congruence).
    simpl. now rewrite app_assoc_s.
Qed.

Lemma strTrim_item ws t s :
  well_formed_item (ws, t) = true -> strTrim (ws ++ t ++ s) = t ++ s.
Proof.
  unfold well_formed_item. simpl. intros [Hws Ht]%andb_prop.
  rewrite strTrim_blanks by exact Hws.
  destruct (plain_topic_inv _ Ht) as (c & t' & -> & Hc & _).
  simpl. now rewrite Hc.
Qed.

Lemma cstr_topic t s :
  all_chars no_separator t = true -> cstr (t ++ String NUL s) = t.
Proof.
  induction t as [|c t IH]; simpl.
  - reflexivity.
  - intros [Hc Ht]%andb_prop. unfold no_separator in Hc.
    apply andb_prop in Hc as [_ Hc]. apply negb_true_iff in Hc.
    rewrite Hc, IH; auto.
Qed.

Lemma collect_skip t p k :
  all_chars no_separator t = true ->
  collect_topics (t ++ p) (S k) = collect_topics p (S k).
Proof.
  induction t as [|c t IH]; simpl; [reflexivity|].
  intros [Hc Ht]%andb_prop. unfold no_separator in Hc.
  apply andb_prop in Hc as [_ Hc]. apply negb_true_iff in Hc.
  simp collect_topics. rewrite Hc. simpl. auto.
Qed.

Lemma collect_items rest t :
  all_chars no_separator t = true ->
  forallb well_formed_item rest = true ->
  collect_topics (t ++ String NUL (cut_image rest)) (length rest)
  = map snd rest.
Proof.
  revert t. induction rest as [|[ws2 t2] rest IH]; intros t Ht Hwf.
  - simpl. now simp collect_topics.
  - simpl in Hwf. apply andb_prop in Hwf as [Hit Hrest].
    simpl length. rewrite collect_skip by exact Ht.
    simp collect_topics. simpl.
    rewrite strTrim_item by exact Hit.
    assert (Ht2 : all_chars no_separator t2 = true).
    { unfold well_formed_item in Hit. simpl in Hit.
      apply andb_prop in Hit as [_ Hp].
      now destruct (plain_topic_inv _ Hp) as (? & ? & _ & _ & ?). }
    rewrite cstr_topic by exact Ht2. now rewrite IH.
Qed.

Lemma read_topics_items items :
  items <> [] -> forallb well_formed_item items = true ->
  read_topics (restrict_topics_str ++ topics_value items)
  = Some (map snd items).
Proof.
  intros Hne Hwf. unfold read_topics. rewrite advance_app.
  destruct items as [|[ws t] rest]; [congruence|].
  pose proof Hwf as Hwf'. simpl in Hwf'.
  apply andb_prop in Hwf' as [Hit Hrest].
  assert (Ht : all_chars no_separator t = true).
  { unfold well_formed_item in Hit. simpl in Hit.
    apply andb_prop in Hit as [_ Hp].
    now destruct (plain_topic_inv _ Hp) as (? & ? & _ & _ & ?). }
  assert (Hbare : well_formed_item (EmptyString, t) = true).
  { unfold well_formed_item in *. simpl in *.
    now apply andb_prop in Hit as [_ ->]. }
  assert (Hstart : strTrim (topics_value ((ws, t) :: rest))
                   = topics_value ((EmptyString, t) :: rest)).
  { destruct rest; simpl topics_value; now rewrite strTrim_item. }
  rewrite Hstart.
  rewrite cut_items; [|congruence|simpl; now rewrite Hbare].
  cbn [fst snd length]. change (0 <? S (length rest))%nat with true. cbv iota.
  replace (S (length rest) - 1)%nat with (length rest) by lia.
  change (cut_image ((EmptyString, t) :: rest))
    with (EmptyString ++ t ++ String NUL (cut_image rest)).
  rewrite strTrim_item by exact Hbare.
  rewrite cstr_topic by exact Ht.
  now rewrite collect_items.
Qed.

Lemma nuls_strTrim p : nuls (strTrim p) = nuls p.
Proof.
  induction p as [|c p IH]; simpl; [reflexivity|].
  destruct (is_blank c) eqn:Hc; [|reflexivity].
  rewrite IH. unfold is_blank in Hc.
  apply orb_prop in Hc as [H|H]; apply Ascii.eqb_eq in H; subst c; reflexivity.
Qed.

Lemma nuls_cut_topics s k :
  (snd (cut_topics s k) <= nuls (fst (cut_topics s k)))%nat.
Proof.
  revert k. induction s as [|c s IH]; intros k; simpl; [lia|].
  destruct (Ascii.eqb c COMMA || Ascii.eqb c LF).
  - specialize (IH 0%nat). destruct (0 <? k)%nat; simpl; lia.
  - specialize (IH (S k)). simpl. lia.
Qed.

(** With no more entries to fill than NULs ahead, the loop fills them all:
    the pointer stays inside the buffer. *)
Lemma collect_topics_in_bounds p k :
  (k <= nuls p)%nat -> length (collect_topics p k) = k.
Proof.
  funelim (collect_topics p k); simp collect_topics; simpl; intros Hk.
  - reflexivity.
  - lia.
  - rewrite Heq in Hk. rewrite H; [reflexivity|].
    rewrite nuls_strTrim. lia.
  - rewrite Heq in Hk. apply H. lia.
Qed.

Lemma read_topics_fills_every_entry line l :
  read_topics line = Some l ->
  length l
  = snd (cut_topics
           (strTrim (advance (String.length restrict_topics_str) line)) 0).
Proof.
  unfold read_topics.
  set (cut := cut_topics _ 0). pose proof (nuls_cut_topics
    (strTrim (advance (String.length restrict_topics_str) line)) 0) as Hn.
  fold cut in Hn.
  destruct (Nat.ltb_spec 0 (snd cut)); [|discriminate].
  intros [= <-]. simpl. rewrite collect_topics_in_bounds.
  - lia.
  - rewrite nuls_strTrim. lia.
Qed.

Lemma read_line_topics items st :
  items <> [] -> forallb well_formed_item items = true ->
  read_line (restrict_topics_str ++ topics_value items) st
  = (fst st, {| raw_topics := Some (map snd items);
                raw_module_name := raw_module_name (snd st);
                raw_ignore_other_topics := raw_ignore_other_topics (snd st) |}).
Proof.
  intros Hne Hwf. unfold read_line.
  assert (Hlen : (String.length (restrict_topics_str ++ topics_value items) <? 2)%nat
                 = false).
  { rewrite length_app_s. apply Nat.ltb_ge. simpl. lia. }
  rewrite Hlen. cbn [orb].
  change (match restrict_topics_str ++ topics_value items with
          | String c _ => Ascii.eqb c "#" | _ => false end) with false.
  cbv iota. rewrite startsWith_app. now rewrite read_topics_items.
Qed.

Lemma bare_well_formed items :
  forallb well_formed_item items = true ->
  forallb well_formed_item (bare items) = true /\ map snd (bare items) = map snd items.
Proof.
  induction items as [|[ws t] rest IH]; simpl; [auto|].
  intros [Hit Hrest]%andb_prop. destruct (IH Hrest) as [-> ->].
  unfold well_formed_item in *. simpl in *.
  apply andb_prop in Hit as [_ ->]. auto.
Qed.

Lemma read_lines_swap pre l1 l2 post st :
  (forall s, read_line l1 s = read_line l2 s) ->
  read_lines (pre ++ l1 :: post) st = read_lines (pre ++ l2 :: post) st.
Proof.
  intros Hsame. revert st. induction pre as [|l pre IH]; intros st; simpl.
  - now rewrite Hsame.
  - destruct (fst st =? OK)%Z; auto.
Qed.

(** C9 (as the code has it): blanks in front of a value are dropped.  A
    "module:" line whose value is preceded by spaces or tabs reads to the
    same rule as the line without them, and so does a "restrict_topics:"
    line whose topic names are each preceded by spaces or tabs; the module
    name read is the value from its first non-blank character up to the
    newline, and the topics read are the names from their first non-blank
    character up to the separator, so blanks behind a value stay in it. *)
Theorem rule_values_lose_leading_blanks :
  (forall pre post rule ws v, blank_string ws = true ->
     readPublisherRulesFromFile (inr (pre ++ module_line ws v :: post)%list) rule
     = readPublisherRulesFromFile (inr (pre ++ module_line EmptyString v :: post)%list) rule)
  /\ (forall pre post rule items,
        items <> [] -> forallb well_formed_item items = true ->
        readPublisherRulesFromFile
          (inr (pre ++ topics_line items :: post)%list) rule
        = readPublisherRulesFromFile
            (inr (pre ++ topics_line (bare items) :: post)%list)
            rule)
  /\ (forall ws v, blank_string ws = true -> strTrim v = v ->
        read_module (module_str ++ ws ++ v ++ nl) = v)
  /\ (forall items, items <> [] -> forallb well_formed_item items = true ->
        read_topics (restrict_topics_str ++ topics_value items)
        = Some (map snd items)).
Proof.
  split; [|split; [|split]].
  - intros pre post rule ws v Hws. unfold readPublisherRulesFromFile.
    rewrite (read_lines_swap pre _ (module_line EmptyString v) post);
      [reflexivity|].
    intros s. unfold module_line. now apply read_line_module_blanks.
  - intros pre post rule items Hne Hwf. unfold readPublisherRulesFromFile.
    destruct (bare_well_formed _ Hwf) as [Hbwf Hmap].
    rewrite (read_lines_swap pre _ (topics_line (bare items)) post);
      [reflexivity|].
    intros s. unfold topics_line. rewrite !read_line_topics; auto.
    + now rewrite Hmap.
    + destruct items; [congruence | discriminate].
  - intros ws v Hws Hv. unfold read_module. rewrite advance_app.
    rewrite strTrim_blanks by exact Hws.
    destruct v as [|c v'].
    + reflexivity.
    + simpl in Hv. simpl. destruct (is_blank c) eqn:Hc.
      * exfalso. pose proof (strTrim_length v') as Hl.
        rewrite Hv in Hl. simpl in Hl. lia.
      * change (String c (v' ++ nl)) with (String c v' ++ nl).
        apply chop_newline_app.
  - apply read_topics_items.
Qed.

(** C9, as stated, fails: a blank behind the module name, or behind a topic
    name, stays in the value, so the file reads to another rule than the
    file with the bare values. *)
Lemma trailing_blank_changes_the_rule :
  let none := {| raw_topics := None; raw_module_name := None;
                 raw_ignore_other_topics := false |} in
  readPublisherRulesFromFile
    (inr ["module: estimator " ++ nl; "restrict_topics: att" ++ nl]) none
  <> readPublisherRulesFromFile
       (inr ["module: estimator" ++ nl; "restrict_topics: att" ++ nl]) none
  /\ raw_module_name (snd (readPublisherRulesFromFile
       (inr ["module: estimator " ++ nl; "restrict_topics: att" ++ nl]) none))
     = Some "estimator "
  /\ read_topics ("restrict_topics: att ,imu" ++ nl) = Some ["att "; "imu"].
Proof.
  intros none. split; [|split].
  - vm_compute. discriminate.
  - vm_compute. reflexivity.
  - vm_compute. reflexivity.
Qed.

Lemma rule_values_lose_leading_blanks_witness :
  let none := {| raw_topics := None; raw_module_name := None;
                 raw_ignore_other_topics := false |} in
  blank_string "  " = true
  /\ readPublisherRulesFromFile
       (inr ([] ++ module_line "  " ("estimator" ++ nl)%string
                :: [topics_line [(EmptyString, "att")]])%list) none
     = readPublisherRulesFromFile
         (inr ([] ++ module_line EmptyString ("estimator" ++ nl)%string
                  :: [topics_line [(EmptyString, "att")]])%list) none
  /\ read_topics (restrict_topics_str
                  ++ topics_value [(" ", "att"); (String TAB " ", "imu")])
     = Some ["att"; "imu"].
Proof.
  intros none.
  assert (Hws : blank_string "  " = true) by reflexivity.
  split; [exact Hws|]. split.
  - exact (proj1 rule_values_lose_leading_blanks [] _ none "  " _ Hws).
  - apply (proj2 (proj2 (proj2 rule_values_lose_leading_blanks))).
    + discriminate.
    + reflexivity.
Defined.

End RulesFacts.

(** * Further properties *)

(** ** The rules file, line by line *)

Section RulesMore.
Import Rules.
Local Open Scope string_scope.
Local Arguments String.append !_ _ / : simpl nomatch.

Lemma strncmp_eq_prefix pre str :
  strncmp_eq pre str = true -> exists s, str = pre ++ s.
Proof.
  revert str. induction pre as [|a pre IH]; intros str; simpl.
  - intros _. now exists str.
  - destruct str as [|b str]; [discriminate|].
    intros [Hab Hrest]%andb_prop. apply Ascii.eqb_eq in Hab. subst b.
    destruct (IH _ Hrest) as [s ->]. now exists s.
Qed.

Lemma startsWith_iff_prefix' (pre str : string) :
  startsWith pre str = true -> exists s, str = pre ++ s.
Proof.
  unfold startsWith. destruct (_ <? _)%nat; [discriminate|].
  apply strncmp_eq_prefix.
Qed.

(** X1: startsWith answers true exactly when the string begins with the
    prefix (the length guard and strncmp together). *)
Theorem startsWith_iff_prefix (pre str : string) :
  startsWith pre str = true <-> exists s, str = pre ++ s.
Proof.
  split.
  - unfold startsWith. destruct (_ <? _)%nat; [discriminate|].
    apply strncmp_eq_prefix.
  - intros [s ->]. apply startsWith_app.
Qed.

Lemma strTrim_strips_exactly_the_leading_blanks' (s : string) :
  exists ws, blank_string ws = true /\ s = ws ++ strTrim s
             /\ leading_blank (strTrim s) = false
             /\ strTrim (strTrim s) = strTrim s.
Proof.
  induction s as [|c s (ws & Hws & Hs & Hlead & Hidem)].
  - exists EmptyString. repeat split.
  - simpl. destruct (is_blank c) eqn:Hc.
    + exists (String c ws). split; [|split; [|split]]; auto.
      * unfold blank_string in *. simpl. now rewrite Hc, Hws.
      * simpl. now rewrite <- Hs.
    + exists EmptyString. split; [|split; [|split]]; auto.
      simpl. now rewrite Hc.
Qed.

(** X2: strTrim moves the pointer over a run of spaces and tabs and nothing
    else: the string is that run followed by the result, the result does not
    begin with a blank, and trimming again changes nothing. *)
Theorem strTrim_strips_exactly_the_leading_blanks (s : string) :
  exists ws, blank_string ws = true /\ s = ws ++ strTrim s
             /\ leading_blank (strTrim s) = false
             /\ strTrim (strTrim s) = strTrim s.
Proof. apply strTrim_strips_exactly_the_leading_blanks'. Qed.

Lemma read_lines_stuck ls st : fst st <> OK -> read_lines ls st = st.
Proof.
  intros Hne. destruct ls as [|l ls]; [reflexivity|]. simpl.
  destruct (Z.eqb_spec (fst st) OK); [contradiction | reflexivity].
Qed.

Lemma read_lines_app a b st :
  read_lines (a ++ b)%list st = read_lines b (read_lines a st).
Proof.
  revert st. induction a as [|l a IH]; intros st; simpl; [reflexivity|].
  destruct (Z.eqb_spec (fst st) OK) as [Hok|Hne]; [apply IH|].
  symmetry. now apply read_lines_stuck.
Qed.

Lemma read_line_code l st :
  fst (read_line l st) = fst st \/ fst (read_line l st) = - EINVAL.
Proof.
  unfold read_line. repeat case_match; simpl; auto.
Qed.

Lemma read_lines_code ls st :
  fst st = OK \/ fst st = - EINVAL ->
  fst (read_lines ls st) = OK \/ fst (read_lines ls st) = - EINVAL.
Proof.
  revert st. induction ls as [|l ls IH]; intros st Hst; simpl; [exact Hst|].
  destruct (Z.eqb_spec (fst st) OK) as [Hok|Hne]; [|exact Hst].
  apply IH. destruct (read_line_code l st) as [->| ->]; auto.
Qed.

Lemma read_lines_OK_prefix a b st :
  fst (read_lines (a ++ b)%list st) = OK -> fst (read_lines a st) = OK.
Proof.
  rewrite read_lines_app. intros Hok.
  destruct (Z.eqb_spec (fst (read_lines a st)) OK) as [|Hne]; [assumption|].
  now rewrite read_lines_stuck in Hok.
Qed.

Lemma read_line_skipped l st : skipped_line l = true -> read_line l st = st.
Proof. unfold read_line, skipped_line. now intros ->. Qed.

Lemma read_line_unknown l st :
  unknown_line l = true -> read_line l st = (- EINVAL, snd st).
Proof.
  unfold unknown_line, read_line, skipped_line.
  intros [[[H1 H2]%andb_prop H3]%andb_prop H4]%andb_prop.
  apply negb_true_iff in H1, H2, H3, H4. now rewrite H1, H2, H3, H4.
Qed.

(** X4: a line that starts with '#' or is shorter than two characters can be
    put anywhere into a rules file without changing what is read. *)
Theorem comment_lines_are_transparent pre l post rule :
  skipped_line l = true ->
  readPublisherRulesFromFile (inr (pre ++ l :: post)%list) rule
  = readPublisherRulesFromFile (inr (pre ++ post)%list) rule.
Proof.
  intros Hskip. unfold readPublisherRulesFromFile.
  rewrite !read_lines_app. simpl.
  set (st := read_lines pre _).
  destruct (Z.eqb_spec (fst st) OK) as [Hok|Hne].
  - now rewrite read_line_skipped.
  - now rewrite read_lines_stuck.
Qed.

Lemma read_fails_on_unknown_line pre l post rule :
  unknown_line l = true ->
  fst (readPublisherRulesFromFile (inr (pre ++ l :: post)%list) rule) = - EINVAL.
Proof.
  intros Hunk. unfold readPublisherRulesFromFile.
  rewrite read_lines_app. simpl.
  set (st := read_lines pre _).
  assert (Hcode : fst st = OK \/ fst st = - EINVAL)
    by (apply read_lines_code; now left).
  assert (Hend : fst (if (fst st =? OK)%Z then read_lines post (read_line l st) else st)
                 = - EINVAL).
  { destruct (Z.eqb_spec (fst st) OK) as [Hok|Hne].
    - rewrite read_line_unknown by exact Hunk.
      rewrite read_lines_stuck; [reflexivity | discriminate].
    - destruct Hcode; [contradiction | assumption]. }
  destruct (if (fst st =? OK)%Z then read_lines post (read_line l st) else st)
    as [code r] eqn:E.
  simpl in *. subst code. reflexivity.
Qed.

(** X5: a line of two or more characters that is no comment and starts with
    none of the three keys makes the read return -EINVAL, whatever stands
    before or after it. *)
Theorem unknown_key_fails_the_read pre l post rule :
  unknown_line l = true ->
  fst (readPublisherRulesFromFile (inr (pre ++ l :: post)%list) rule) = - EINVAL.
Proof. apply read_fails_on_unknown_line. Qed.

Lemma startsWith_first_char pre c rest a pre' :
  pre = String a pre' -> Ascii.eqb a c = false ->
  startsWith pre (String c rest) = false.
Proof.
  intros -> Hac. unfold startsWith. destruct (_ <? _)%nat; [reflexivity|].
  simpl. now rewrite Hac.
Qed.

(** X6: keys must start in the first column: a line of two or more characters
    that begins with a space or a tab makes the read return -EINVAL. *)
Theorem indented_line_fails_the_read pre c rest post rule :
  is_blank c = true -> rest <> EmptyString ->
  fst (readPublisherRulesFromFile
         (inr (pre ++ String c rest :: post)%list) rule) = - EINVAL.
Proof.
  intros Hc Hrest. apply read_fails_on_unknown_line.
  assert (Hcases : c = SPACE \/ c = TAB).
  { unfold is_blank in Hc. apply orb_prop in Hc as [H|H];
      apply Ascii.eqb_eq in H; auto. }
  unfold unknown_line, skipped_line.
  destruct rest as [|d rest]; [congruence|].
  assert (Hr : startsWith restrict_topics_str (String c (String d rest)) = false)
    by (destruct Hcases as [-> | ->];
        now apply (startsWith_first_char _ _ _ "r"%char "estrict_topics:")).
  assert (Hm : startsWith module_str (String c (String d rest)) = false)
    by (destruct Hcases as [-> | ->];
        now apply (startsWith_first_char _ _ _ "m"%char "odule:")).
  assert (Hi : startsWith ignore_others (String c (String d rest)) = false)
    by (destruct Hcases as [-> | ->];
        now apply (startsWith_first_char _ _ _ "i"%char "gnore_others:")).
  rewrite Hr, Hm, Hi. destruct Hcases as [-> | ->]; reflexivity.
Qed.

(** X7: for a file that could be opened the function returns OK or -EINVAL;
    for one that could not, the negated errno of fopen, and the rule is left
    as it was. *)
Theorem read_returns_OK_or_EINVAL :
  (forall lines rule,
     fst (readPublisherRulesFromFile (inr lines) rule) = OK
     \/ fst (readPublisherRulesFromFile (inr lines) rule) = - EINVAL)
  /\ (forall e rule, readPublisherRulesFromFile (inl e) rule = (- e, rule)).
Proof.
  split; [|reflexivity].
  intros lines rule. unfold readPublisherRulesFromFile.
  destruct (read_lines_code lines (OK, init_rule) (or_introl eq_refl))
    as [Hok|Hbad]; fold init_rule.
  - rewrite Hok. simpl. destruct (_ || _); simpl; auto.
  - rewrite Hbad. simpl. now right.
Qed.

Lemma read_line_keeps_topics l st :
  startsWith restrict_topics_str l = false ->
  raw_topics (snd (read_line l st)) = raw_topics (snd st).
Proof.
  unfold read_line. intros ->. repeat case_match; reflexivity.
Qed.

Lemma read_line_topics_ok l st : topics_ok (snd st) -> topics_ok (snd (read_line l st)).
Proof.
  intros Hst. destruct (startsWith restrict_topics_str l) eqn:Hr.
  - unfold read_line. destruct (_ || _); [exact Hst|]. rewrite Hr.
    destruct (read_topics l) as [ts|] eqn:Hts; [|exact Hst].
    unfold topics_ok. simpl. unfold read_topics in Hts.
    destruct (0 <? _)%nat; [|discriminate].
    injection Hts as <-. discriminate.
  - unfold topics_ok. now rewrite read_line_keeps_topics.
Qed.

Lemma read_lines_topics_ok ls st :
  topics_ok (snd st) -> topics_ok (snd (read_lines ls st)).
Proof.
  revert st. induction ls as [|l ls IH]; intros st Hst; simpl; [exact Hst|].
  destruct (fst st =? OK)%Z; [|exact Hst].
  apply IH. now apply read_line_topics_ok.
Qed.

(** X8: when the read returns OK, the module name and the topics array are
    both non-null and the array holds at least one topic. *)
Theorem successful_read_fills_the_rule lines rule :
  fst (readPublisherRulesFromFile (inr lines) rule) = OK ->
  exists name l,
    raw_module_name (snd (readPublisherRulesFromFile (inr lines) rule)) = Some name
    /\ raw_topics (snd (readPublisherRulesFromFile (inr lines) rule)) = Some l
    /\ l <> [].
Proof.
  unfold readPublisherRulesFromFile. fold init_rule.
  pose proof (read_lines_topics_ok lines (OK, init_rule) I) as Hok.
  destruct (read_lines lines (OK, init_rule)) as [code r]. simpl in *.
  destruct (Z.eqb_spec code OK) as [->|Hne]; simpl.
  - unfold topics_ok in Hok.
    destruct (raw_module_name r) as [name|] eqn:Hname,
             (raw_topics r) as [l|] eqn:Hl; simpl; try discriminate.
    intros _. exists name, l. repeat split; auto.
  - intros Hcode. contradiction.
Qed.

Lemma read_line_keeps_module l st :
  startsWith module_str l = false ->
  raw_module_name (snd (read_line l st)) = raw_module_name (snd st).
Proof.
  unfold read_line. intros ->. repeat case_match; reflexivity.
Qed.

Lemma read_lines_keep_module ls st :
  Forall (fun l => startsWith module_str l = false) ls ->
  raw_module_name (snd (read_lines ls st)) = raw_module_name (snd st).
Proof.
  intros Hall. revert st. induction Hall as [|l ls Hl _ IH]; intros st; simpl;
    [reflexivity|].
  destruct (fst st =? OK)%Z; [|reflexivity].
  rewrite IH. now apply read_line_keeps_module.
Qed.

Lemma read_lines_keep_topics ls st :
  Forall (fun l => startsWith restrict_topics_str l = false) ls ->
  raw_topics (snd (read_lines ls st)) = raw_topics (snd st).
Proof.
  intros Hall. revert st. induction Hall as [|l ls Hl _ IH]; intros st; simpl;
    [reflexivity|].
  destruct (fst st =? OK)%Z; [|reflexivity].
  rewrite IH. now apply read_line_keeps_topics.
Qed.

(** X9: a file without any module line, or without any restrict_topics line,
    is refused with -EINVAL. *)
Theorem read_needs_module_and_topics lines rule :
  Forall (fun l => startsWith module_str l = false) lines
  \/ Forall (fun l => startsWith restrict_topics_str l = false) lines ->
  fst (readPublisherRulesFromFile (inr lines) rule) = - EINVAL.
Proof.
  intros Hmissing. unfold readPublisherRulesFromFile. fold init_rule.
  pose proof (read_lines_code lines (OK, init_rule) (or_introl eq_refl)) as Hcode.
  assert (Hnull : raw_module_name (snd (read_lines lines (OK, init_rule))) = None
                  \/ raw_topics (snd (read_lines lines (OK, init_rule))) = None).
  { destruct Hmissing as [H|H].
    - left. now rewrite read_lines_keep_module.
    - right. now rewrite read_lines_keep_topics. }
  destruct (read_lines lines (OK, init_rule)) as [code r]. simpl in *.
  destruct Hcode as [-> | ->]; simpl; [|reflexivity].
  destruct Hnull as [-> | ->]; simpl; [reflexivity|].
  now rewrite orb_true_r.
Qed.

Lemma read_line_keeps_ignore l st :
  raw_ignore_other_topics (snd st) = true ->
  raw_ignore_other_topics (snd (read_line l st)) = true.
Proof.
  unfold read_line. intros Hst. repeat case_match; simpl; auto.
Qed.

Lemma read_lines_keep_ignore ls st :
  raw_ignore_other_topics (snd st) = true ->
  raw_ignore_other_topics (snd (read_lines ls st)) = true.
Proof.
  revert st. induction ls as [|l ls IH]; intros st Hst; simpl; [exact Hst|].
  destruct (fst st =? OK)%Z; [|exact Hst].
  apply IH. now apply read_line_keeps_ignore.
Qed.

Lemma successful_read_is_read_lines lines rule :
  fst (readPublisherRulesFromFile (inr lines) rule) = OK ->
  readPublisherRulesFromFile (inr lines) rule = read_lines lines (OK, init_rule).
Proof.
  unfold readPublisherRulesFromFile. fold init_rule.
  destruct (_ && _); [discriminate | reflexivity].
Qed.

(** X10: ignore_other_topics is only ever set: once an ignore_others line with
    the value true was read, no later line of a file that reads OK turns it
    off again. *)
Theorem ignore_others_true_is_never_reset pre l post rule :
  fst (readPublisherRulesFromFile (inr (pre ++ l :: post)%list) rule) = OK ->
  startsWith ignore_others l = true ->
  startsWith "true"
    (strTrim (advance (String.length ignore_others) l)) = true ->
  raw_ignore_other_topics
    (snd (readPublisherRulesFromFile (inr (pre ++ l :: post)%list) rule)) = true.
Proof.
  intros Hok Hkey Htrue.
  rewrite successful_read_is_read_lines by exact Hok.
  rewrite successful_read_is_read_lines in Hok by exact Hok.
  pose proof (read_lines_OK_prefix pre (l :: post) _ Hok) as Hpre.
  rewrite read_lines_app. simpl. rewrite Hpre. simpl.
  apply read_lines_keep_ignore.
  apply startsWith_iff_prefix' in Hkey as [s ->].
  unfold read_line.
  change (String.length (ignore_others ++ s) <? 2)%nat with false.
  rewrite startsWith_app.
  assert (Hr : startsWith restrict_topics_str (ignore_others ++ s) = false)
    by now apply (startsWith_first_char _ "i"%char ("gnore_others:" ++ s)
                    "r"%char "estrict_topics:").
  assert (Hm : startsWith module_str (ignore_others ++ s) = false)
    by now apply (startsWith_first_char _ "i"%char ("gnore_others:" ++ s)
                    "m"%char "odule:").
  rewrite Hr, Hm. simpl orb. cbv iota. now rewrite Htrue.
Qed.

(** X11: of several module lines the last one decides: the module name is its
    value from the first non-blank character on, without the newline. *)
Theorem last_module_line_wins pre s post rule :
  fst (readPublisherRulesFromFile
         (inr (pre ++ (module_str ++ s)%string :: post)%list) rule) = OK ->
  Forall (fun l => startsWith module_str l = false) post ->
  raw_module_name
    (snd (readPublisherRulesFromFile
            (inr (pre ++ (module_str ++ s)%string :: post)%list) rule))
  = Some (chop_newline (strTrim s)).
Proof.
  intros Hok Hpost.
  assert (Hline : forall st,
            raw_module_name (snd (read_line (module_str ++ s) st))
            = Some (chop_newline (strTrim s))).
  { intros st. unfold read_line.
    change (String.length (module_str ++ s) <? 2)%nat with false.
    assert (Hr : startsWith restrict_topics_str (module_str ++ s) = false)
      by now apply (startsWith_first_char _ "m"%char ("odule:" ++ s)
                      "r"%char "estrict_topics:").
    rewrite Hr, startsWith_app. cbn [orb snd raw_module_name].
    unfold read_module. now rewrite advance_app. }
  set (line := module_str ++ s) in *.
  rewrite successful_read_is_read_lines by exact Hok.
  rewrite successful_read_is_read_lines in Hok by exact Hok.
  pose proof (read_lines_OK_prefix pre (line :: post) _ Hok) as Hpre.
  rewrite read_lines_app. cbn [read_lines]. rewrite Hpre.
  change (OK =? OK)%Z with true. cbv iota.
  rewrite read_lines_keep_module by exact Hpost. apply Hline.
Qed.

Lemma cstr_no_leading_blank p :
  leading_blank p = false -> leading_blank (cstr p) = false.
Proof.
  destruct p as [|c p]; simpl; [reflexivity|].
  destruct (Ascii.eqb c NUL); [reflexivity | auto].
Qed.

Lemma collect_topics_no_leading_blank p k :
  Forall (fun t => leading_blank t = false) (collect_topics p k).
Proof.
  funelim (collect_topics p k); simp collect_topics; try constructor.
  - apply cstr_no_leading_blank.
    now destruct (strTrim_strips_exactly_the_leading_blanks' rest)
      as (? & _ & _ & ? & _).
  - assumption.
Qed.

(** X3: when a restrict_topics line yields topics, the array gets exactly as
    many entries as separators were cut (the walk over the buffer never runs
    short), at least one, and no entry begins with a space or tab. *)
Theorem read_topics_entries line l :
  read_topics line = Some l ->
  length l
  = snd (cut_topics
           (strTrim (advance (String.length restrict_topics_str) line)) 0)
  /\ l <> []
  /\ Forall (fun t => leading_blank t = false) l.
Proof.
  unfold read_topics.
  set (start := strTrim _). set (cut := cut_topics start 0).
  pose proof (nuls_cut_topics start 0) as Hn. fold cut in Hn.
  destruct (Nat.ltb_spec 0 (snd cut)); [|discriminate].
  intros [= <-]. split; [|split].
  - simpl. rewrite collect_topics_in_bounds; [lia|].
    rewrite nuls_strTrim. lia.
  - discriminate.
  - constructor; [|apply collect_topics_no_leading_blank].
    apply cstr_no_leading_blank.
    now destruct (strTrim_strips_exactly_the_leading_blanks' (fst cut))
      as (? & _ & _ & ? & _).
Qed.
End RulesMore.

(** ** The manager on any device layer *)

Section ManagerMore.
Context {W : Type} {D : DeviceLayer W}.
Local Open Scope mgr_scope.

Lemma finish_outcome meta (fd : Z) (inst : option Z) (st : state W) :
  open_failed meta
    ((if fd <? 0 then (set_errno EIO ;;; ret (-1, inst)) else ret (fd, inst)) st).
Proof.
  destruct (Z.ltb_spec fd 0).
  - right. split; [reflexivity | left; reflexivity].
  - left. exact H.
Qed.

Lemma tail_outcome (m : orb_metadata) (flags priority fd : Z)
    (inst : option Z) (st : state W) :
  open_failed (Some m)
    ((if fd <? 0 then
        a <- node_advertise m inst priority ;;
        if fst a =? OK then
          if negb (fst (node_mkpath (Some m) (snd a)) =? OK) then
            set_errno (- fst (node_mkpath (Some m) (snd a))) ;;; ret (-1, snd a)
          else
            o <- call (sys_open (snd (node_mkpath (Some m) (snd a))) flags) ;;
            (if rc_of o <? 0 then (set_errno EIO ;;; ret (-1, snd a))
             else ret (rc_of o, snd a))
        else
          (if fd <? 0 then (set_errno EIO ;;; ret (-1, snd a))
           else ret (fd, snd a))
      else
        (if fd <? 0 then (set_errno EIO ;;; ret (-1, inst))
         else ret (fd, inst))) st).
Proof.
  destruct (fd <? 0) eqn:Hfd.
  - unfold bind at 1.
    destruct (node_advertise m inst priority st) as [a st1].
    destruct (fst a =? OK).
    + destruct (Z.eqb_spec (fst (node_mkpath (Some m) (snd a))) OK) as [Hmk|Hmk];
        cbn [negb].
      * unfold bind at 1.
        destruct (call (sys_open (snd (node_mkpath (Some m) (snd a))) flags) st1)
          as [o st2].
        apply finish_outcome.
      * right. split; [reflexivity|]. right. exists (snd a).
        split; [exact Hmk | reflexivity].
    + right. split; [reflexivity | left; reflexivity].
  - left. cbn. now apply Z.ltb_ge.
Qed.

(** X13: node_open returns a non-negative descriptor or -1; with -1 errno is
    ENOENT (null descriptor), EINVAL (advertiser without data), the negated
    code of node_mkpath, or EIO. *)
Theorem node_open_outcomes
    (meta : option orb_metadata) (data : option payload) (advertiser : bool)
    (instance : option Z) (priority : Z) (st : state W) :
  let r := node_open meta data advertiser instance priority st in
  0 <= fst (fst r)
  \/ (fst (fst r) = -1
      /\ ((meta = None /\ errno (snd r) = ENOENT)
          \/ (advertiser = true /\ data = None /\ errno (snd r) = EINVAL)
          \/ errno (snd r) = EIO
          \/ (exists inst, fst (node_mkpath meta inst) <> OK
                           /\ errno (snd r) = - fst (node_mkpath meta inst)))).
Proof.
  cbv zeta.
  assert (Hweaken : forall r, open_failed meta r ->
            0 <= fst (fst r)
            \/ (fst (fst r) = -1
                /\ ((meta = None /\ errno (snd r) = ENOENT)
                    \/ (advertiser = true /\ data = None
                        /\ errno (snd r) = EINVAL)
                    \/ errno (snd r) = EIO
                    \/ (exists inst, fst (node_mkpath meta inst) <> OK
                          /\ errno (snd r) = - fst (node_mkpath meta inst))))).
  { intros r [Hok|[Hfail [Hio|Hmk]]]; [left; exact Hok | right | right];
      (split; [exact Hfail|]); auto. }
  unfold node_open. cbv zeta.
  destruct meta as [m|];
    [|right; split; [reflexivity | left; split; reflexivity]].
  destruct (advertiser && negb (is_Some_b data)) eqn:Hdata.
  - right. split; [reflexivity|]. right. left.
    apply andb_prop in Hdata as [-> Hd]. destruct data; [discriminate|].
    repeat split.
  - apply Hweaken.
    destruct (negb (is_Some_b instance) || negb advertiser).
    + destruct (Z.eqb_spec (fst (node_mkpath (Some m) instance)) OK) as [Hmk|Hmk];
        cbn [negb].
      * unfold bind at 1.
        destruct (call (sys_open (snd (node_mkpath (Some m) instance))
                          (if advertiser then O_WRONLY else O_RDONLY)) st)
          as [o st1].
        apply tail_outcome.
      * right. split; [reflexivity|]. right. exists instance.
        split; [exact Hmk | reflexivity].
    + apply tail_outcome.
Qed.

(** X14: when the master device refuses ORBIOCADVERTISE, node_advertise
    returns OK if errno is EEXIST and -1 otherwise, and closes the master
    descriptor in both cases. *)
Theorem node_advertise_tolerates_EEXIST
    (meta : orb_metadata) (instance : option Z) (priority : Z) (st : state W)
    (fd : Z) (w1 w2 : W) (e : Z) (x : option (option Z)) :
  sys_open TOPIC_MASTER_DEVICE_PATH 0 (devices st) = (Ok fd tt, w1) ->
  0 <= fd ->
  sys_ioctl fd (ORBIOCADVERTISE {| adv_meta := meta; adv_instance := instance;
                                   adv_priority := priority |}) w1
    = (Err e x, w2) ->
  fst (fst (node_advertise meta instance priority st))
    = (if e =? EEXIST then OK else -1)
  /\ devices (snd (node_advertise meta instance priority st))
     = snd (sys_close fd w2).
Proof.
  intros Hopen Hfd Hio. unfold node_advertise. mrun.
  rewrite Hopen. mrun. destruct (Z.ltb_spec fd 0); [lia|].
  mrun. rewrite Hio. mrun. destruct (sys_close fd w2) as [rc w3]. cbn [fst snd devices].
  split; [|reflexivity].
  change (OK =? -1) with false. cbn [negb andb].
  rewrite (Z.eqb_sym EEXIST e). reflexivity.
Qed.

(** X17: orb_get_interval divides the caller's variable by 1000 even when the
    ioctl failed and stored nothing in it. *)
Theorem orb_get_interval_divides_even_on_failure
    (handle interval : Z) (st : state W) (e : Z) :
  fst (sys_ioctl handle ORBIOCGETINTERVAL (devices st)) = Err e None ->
  fst (orb_get_interval handle interval st) = (-1, interval / 1000).
Proof.
  intros Hfail. unfold orb_get_interval. mrun.
  destruct (sys_ioctl handle ORBIOCGETINTERVAL (devices st)) as [r w].
  cbn [fst] in Hfail. subst r. reflexivity.
Qed.

Lemma orb_exists_absent_node
    (cfg : BuildConfig) (m : orb_metadata) (instance : Z) (st : state W)
    (path : string) (e : Z) (x : option unit) (w1 : W) (e' : Z)
    (x' : option unit) (w2 : W) :
  node_mkpath (Some m) (Some instance) = (OK, path) ->
  sys_stat path (devices st) = (Err e x, w1) ->
  sys_open path 0 w1 = (Err e' x', w2) ->
  fst (orb_exists cfg (Some m) instance st)
  = if ORB_COMMUNICATOR cfg && bool_decide (o_name m ∈ _remote_topics (manager st))
    then OK else -1.
Proof.
  intros Hmk Hstat Hopen. unfold orb_exists. mrun. rewrite Hmk. simpl.
  rewrite Hstat. simpl.
  destruct (ORB_COMMUNICATOR cfg); simpl; [|reflexivity].
  destruct (bool_decide_reflect (_remote_topics (manager st) = ∅))
    as [Hempty|Hne]; simpl.
  - rewrite Hempty.
    rewrite bool_decide_eq_false_2 by apply not_elem_of_empty. reflexivity.
  - destruct (bool_decide (o_name m ∈ _remote_topics (manager st))); simpl.
    + rewrite Hopen. reflexivity.
    + reflexivity.
Qed.

(** X19: for a topic without a local node, a remote advertisement makes
    orb_exists answer OK, and its withdrawal makes it answer -1. *)
Theorem remote_advertisement_toggles_exists
    (cfg : BuildConfig) (m : orb_metadata) (instance : Z) (st : state W)
    (path : string) (e : Z) (x : option unit) (w1 : W) (e' : Z)
    (x' : option unit) (w2 : W) :
  ORB_COMMUNICATOR cfg = true ->
  node_mkpath (Some m) (Some instance) = (OK, path) ->
  sys_stat path (devices st) = (Err e x, w1) ->
  sys_open path 0 w1 = (Err e' x', w2) ->
  fst (orb_exists cfg (Some m) instance
         (snd (process_remote_topic (o_name m) true st))) = OK
  /\ fst (orb_exists cfg (Some m) instance
         (snd (process_remote_topic (o_name m) false st))) = -1.
Proof.
  intros Hcomm Hmk Hstat Hopen. split.
  - rewrite (orb_exists_absent_node cfg m instance _ path e x w1 e' x' w2);
      auto.
    rewrite Hcomm. cbn.
    rewrite bool_decide_eq_true_2
      by (apply elem_of_union_l, elem_of_singleton; reflexivity).
    reflexivity.
  - rewrite (orb_exists_absent_node cfg m instance _ path e x w1 e' x' w2);
      auto.
    rewrite Hcomm. cbn.
    rewrite bool_decide_eq_false_2
      by (intros [_ Hn]%elem_of_difference; apply Hn, elem_of_singleton;
          reflexivity).
    reflexivity.
Qed.

(** X18: process_remote_topic returns 0 and changes nothing but the set of
    remote topics: an advertisement adds the name, a withdrawal removes it,
    other names stay as they are. *)
Theorem process_remote_topic_updates_only_the_set
    (name : string) (isAdvertisement : bool) (st : state W) :
  let st' := snd (process_remote_topic name isAdvertisement st) in
  fst (process_remote_topic name isAdvertisement st) = 0
  /\ errno st' = errno st /\ devices st' = devices st
  /\ _has_publisher_rules (manager st') = _has_publisher_rules (manager st)
  /\ _publisher_rule (manager st') = _publisher_rule (manager st)
  /\ (forall other,
        other ∈ _remote_topics (manager st') <->
        (if isAdvertisement
         then other = name \/ other ∈ _remote_topics (manager st)
         else other <> name /\ other ∈ _remote_topics (manager st))).
Proof.
  cbn. split; [reflexivity|]. split; [reflexivity|]. split; [reflexivity|].
  split; [reflexivity|]. split; [reflexivity|].
  intros other. destruct isAdvertisement.
  - rewrite elem_of_union, elem_of_singleton. tauto.
  - rewrite elem_of_difference, elem_of_singleton. tauto.
Qed.

(** X15: when the node does not hand out an advertiser handle,
    orb_advertise_multi returns the null handle, having closed the descriptor
    that node_open gave it. *)
Theorem advertise_closes_the_node_on_failure
    (cfg : BuildConfig) (m : orb_metadata) (d : payload) (instance : option Z)
    (priority queue_size : Z) (st st1 : state W) (fd : Z) (inst' : option Z)
    (rq : reply unit) (w2 w3 : W) (e : Z) (x : option orb_advert_t) :
  publisher_rule_denies cfg (manager st) (px4_get_taskname (devices st))
    (o_name m) = false ->
  node_open (Some m) (Some d) true instance priority st = (fd, inst', st1) ->
  fd <> -1 ->
  sys_ioctl fd (ORBIOCSETQUEUESIZE queue_size) (devices st1) = (rq, w2) ->
  sys_ioctl fd ORBIOCGADVERTISER w2 = (Err e x, w3) ->
  fst (orb_advertise_multi cfg m (Some d) instance priority queue_size st)
    = (nullptr, inst')
  /\ devices (snd (orb_advertise_multi cfg m (Some d) instance priority
                     queue_size st))
     = snd (sys_close fd w3).
Proof.
  intros Hgate Hopen Hfd Hq Hg.
  assert (Hrun : orb_advertise_multi cfg m (Some d) instance priority
                   queue_size st
                 = (nullptr, inst',
                    Build_state
                      (match fst (sys_close fd w3) with
                       | Ok _ _ => e | Err e' _ => e' end)
                      (manager st1) (snd (sys_close fd w3)))).
  { unfold orb_advertise_multi. rewrite Hgate.
    unfold bind at 1. rewrite Hopen. cbn [fst snd].
    destruct (Z.eqb_spec fd (-1)) as [|_]; [congruence|].
    mrun. rewrite Hq. cbn [devices]. rewrite Hg. cbn [devices].
    destruct (sys_close fd w3) as [rc w4]. reflexivity. }
  rewrite Hrun. split; reflexivity.
Qed.

(** X16: on a node that is there, orb_subscribe is orb_subscribe_multi with
    instance 0: both return the descriptor of the one open of the node's
    path. *)
Theorem orb_subscribe_is_instance_0_on_an_existing_node
    (m : orb_metadata) (st : state W) (path : string) (fd : Z) (w1 : W) :
  node_mkpath (Some m) None = (OK, path) ->
  node_mkpath (Some m) (Some 0) = (OK, path) ->
  sys_open path O_RDONLY (devices st) = (Ok fd tt, w1) ->
  0 <= fd ->
  orb_subscribe (Some m) st = (fd, Build_state (errno st) (manager st) w1)
  /\ orb_subscribe_multi (Some m) 0 st = orb_subscribe (Some m) st.
Proof.
  intros Hnone Hzero Hopen Hfd.
  unfold orb_subscribe, orb_subscribe_multi, node_open. cbn [is_Some_b negb orb andb].
  change (to_int 0) with 0. rewrite Hnone, Hzero. cbn [fst snd]. change (OK =? OK) with true. cbn [negb].
  mrun. rewrite Hopen. mrun. destruct (Z.ltb_spec fd 0); [lia|].
  split; reflexivity.
Qed.

(** X28: orb_subscribe_multi copies its unsigned instance into an int before
    node_open sees it: up to 2^31 - 1 node_open is handed the instance
    itself, from 2^31 on the negative number instance - 2^32. *)
Theorem orb_subscribe_multi_converts_the_instance
    (meta : option orb_metadata) (instance : Z) (st : state W) :
  0 <= instance < UINT_MODULUS ->
  let inst := if instance <? 2 ^ 31 then instance
              else instance - UINT_MODULUS in
  - 2 ^ 31 <= inst < 2 ^ 31
  /\ fst (orb_subscribe_multi meta instance st)
     = fst (fst (node_open meta None false (Some inst) ORB_PRIO_DEFAULT st))
  /\ snd (orb_subscribe_multi meta instance st)
     = snd (node_open meta None false (Some inst) ORB_PRIO_DEFAULT st).
Proof.
  intros Hrange inst. unfold UINT_MODULUS in *.
  assert (Hconv : to_int instance = inst).
  { subst inst. unfold to_int, UINT_MODULUS.
    destruct (Z.ltb_spec instance (2 ^ 31)).
    - rewrite Z.mod_small by lia. lia.
    - replace (instance + 2 ^ 31) with (instance - 2 ^ 31 + 1 * 2 ^ 32) by lia.
      rewrite Z.mod_add by lia. rewrite Z.mod_small by lia. lia. }
  split.
  - subst inst. destruct (Z.ltb_spec instance (2 ^ 31)); lia.
  - unfold orb_subscribe_multi. rewrite Hconv. unfold bind, ret.
    destruct (node_open meta None false (Some inst) ORB_PRIO_DEFAULT st)
      as [[fd i] st1].
    split; reflexivity.
Qed.

(** X12: a manager built without publisher rules compiled in, or from a rules
    file that could not be read without error, denies no advertise. *)
Theorem unreadable_rules_leave_publishing_unrestricted
    (cfg : BuildConfig) (file : Z + list string) (prog topic : string) :
  ORB_USE_PUBLISHER_RULES cfg = false
  \/ fst (Rules.readPublisherRulesFromFile file
            {| Rules.raw_topics := None; Rules.raw_module_name := None;
               Rules.raw_ignore_other_topics := false |}) <> OK ->
  publisher_rule_denies cfg (Manager_ctor cfg file) prog topic = false.
Proof.
  intros [Hoff|Hbad]; unfold publisher_rule_denies.
  - now rewrite Hoff.
  - destruct (ORB_USE_PUBLISHER_RULES cfg) eqn:Hon; [|reflexivity].
    unfold Manager_ctor. rewrite Hon. cbn [_has_publisher_rules].
    destruct (Z.eqb_spec (fst (Rules.readPublisherRulesFromFile file
      {| Rules.raw_topics := None; Rules.raw_module_name := None;
         Rules.raw_ignore_other_topics := false |})) OK); [contradiction|].
    reflexivity.
Qed.

Lemma keeps_manager_ret {A} (a : A) : keeps_manager (W:=W) (ret a).
Proof. intros st. reflexivity. Qed.

Lemma keeps_manager_bind {A B} (m : M W A) (k : A -> M W B) :
  keeps_manager m -> (forall a, keeps_manager (k a)) -> keeps_manager (bind m k).
Proof.
  intros Hm Hk st. unfold bind. specialize (Hm st).
  destruct (m st) as [a s']. cbn [snd] in Hm. now rewrite Hk.
Qed.

Lemma keeps_manager_call {X} (op : W -> reply X * W) : keeps_manager (call op).
Proof. intros st. unfold call. now destruct (op (devices st)). Qed.

Lemma keeps_manager_set_errno (e : Z) : keeps_manager (@set_errno W e).
Proof. intros st. reflexivity. Qed.

Lemma keeps_manager_get_errno : keeps_manager (@get_errno W).
Proof. intros st. reflexivity. Qed.

Lemma keeps_manager_get_manager : keeps_manager (@get_manager W).
Proof. intros st. reflexivity. Qed.

Ltac keeps :=
  repeat first
    [ apply keeps_manager_ret
    | apply keeps_manager_call
    | apply keeps_manager_set_errno
    | apply keeps_manager_get_errno
    | apply keeps_manager_get_manager
    | apply keeps_manager_bind; [|intros ?]
    | match goal with
      | |- keeps_manager (if ?b then _ else _) => destruct b
      | |- keeps_manager (match ?x with _ => _ end) => destruct x
      end ].

Lemma node_open_keeps_manager meta data advertiser instance priority :
  keeps_manager (node_open meta data advertiser instance priority).
Proof. unfold node_open, node_advertise. keeps. Qed.

Lemma orb_publish_keeps_manager cfg meta handle data :
  keeps_manager (orb_publish cfg meta handle data).
Proof. unfold orb_publish. keeps. Qed.

(** X20: none of the publish/subscribe entry points changes the manager's own
    data (the rule, its flag, the remote topics). *)
Theorem manager_members_are_read_only (cfg : BuildConfig) (st : state W) :
  (forall meta instance,
     manager (snd (orb_exists cfg meta instance st)) = manager st)
  /\ (forall meta data instance priority queue_size,
        manager (snd (orb_advertise_multi cfg meta data instance priority
                        queue_size st)) = manager st)
  /\ (forall handle, manager (snd (orb_unadvertise cfg handle st)) = manager st)
  /\ (forall meta, manager (snd (orb_subscribe meta st)) = manager st)
  /\ (forall meta instance,
        manager (snd (orb_subscribe_multi meta instance st)) = manager st)
  /\ (forall fd, manager (snd (orb_unsubscribe fd st)) = manager st)
  /\ (forall meta handle data,
        manager (snd (orb_publish cfg meta handle data st)) = manager st)
  /\ (forall meta handle, manager (snd (orb_copy meta handle st)) = manager st)
  /\ (forall handle, manager (snd (orb_check handle st)) = manager st)
  /\ (forall handle time, manager (snd (orb_stat handle time st)) = manager st)
  /\ (forall handle priority,
        manager (snd (orb_priority handle priority st)) = manager st)
  /\ (forall handle interval,
        manager (snd (orb_set_interval handle interval st)) = manager st)
  /\ (forall handle interval,
        manager (snd (orb_get_interval handle interval st)) = manager st).
Proof.
  repeat match goal with |- _ /\ _ => split end; intros.
  - revert st. change (keeps_manager (orb_exists cfg meta instance)).
    unfold orb_exists. keeps.
  - unfold orb_advertise_multi.
    destruct (publisher_rule_denies _ _ _ _); [reflexivity|].
    revert st. match goal with |- forall st, manager (snd (?f st)) = _ =>
      change (keeps_manager f) end.
    keeps; try apply node_open_keeps_manager; try apply orb_publish_keeps_manager.
  - revert st. change (keeps_manager (orb_unadvertise cfg handle)).
    unfold orb_unadvertise. keeps.
  - revert st. change (keeps_manager (orb_subscribe meta)).
    unfold orb_subscribe. keeps. apply node_open_keeps_manager.
  - revert st. change (keeps_manager (orb_subscribe_multi meta instance)).
    unfold orb_subscribe_multi. keeps. apply node_open_keeps_manager.
  - revert st. change (keeps_manager (orb_unsubscribe fd)).
    unfold orb_unsubscribe. keeps.
  - apply orb_publish_keeps_manager.
  - revert st. change (keeps_manager (orb_copy meta handle)).
    unfold orb_copy. keeps.
  - revert st. change (keeps_manager (orb_check handle)).
    unfold orb_check. keeps.
  - revert st. change (keeps_manager (orb_stat handle time)).
    unfold orb_stat. keeps.
  - revert st. change (keeps_manager (orb_priority handle priority)).
    unfold orb_priority. keeps.
  - revert st. change (keeps_manager (orb_set_interval handle interval)).
    unfold orb_set_interval. keeps.
  - revert st. change (keeps_manager (orb_get_interval handle interval)).
    unfold orb_get_interval. keeps.
Qed.
End ManagerMore.

(** ** The bridge handlers and the driver lock *)

Section BridgeFacts.
Context {W : Type} {L : MasterLayer W}.

(** X22: once get_device_master returned the master, a further call returns it
    again without creating or initialising anything. *)
Theorem get_device_master_is_created_once (b : Bridge W) :
  fst (get_device_master b) = true ->
  get_device_master (snd (get_device_master b))
  = (true, snd (get_device_master b)).
Proof.
  intros Hok.
  assert (Hset : _device_master (snd (get_device_master b)) = true).
  { revert Hok. unfold get_device_master.
    destruct (_device_master b) eqn:Hm; cbn [negb]; [intros _; exact Hm|].
    destruct (fst (DeviceMaster_new _)); [|discriminate].
    destruct (negb _); [discriminate | reflexivity]. }
  unfold get_device_master at 1. now rewrite Hset.
Qed.

(** X23: when get_device_master fails the pointer stays null (so the next call
    tries again) and errno is ENOMEM for a failed allocation or the negated
    code of init. *)
Theorem get_device_master_failure_is_retried (b : Bridge W) :
  fst (get_device_master b) = false ->
  let b' := snd (get_device_master b) in
  _device_master b' = false
  /\ _remote_subscriber_topics b' = _remote_subscriber_topics b
  /\ manager (base b') = manager (base b)
  /\ (errno (base b') = ENOMEM
      /\ fst (DeviceMaster_new (devices (base b))) = false
      \/ exists ret_, ret_ <> OK
           /\ fst (DeviceMaster_init (snd (DeviceMaster_new (devices (base b)))))
              = ret_
           /\ errno (base b') = - ret_).
Proof.
  unfold get_device_master.
  destruct (_device_master b) eqn:Hm; cbn [negb]; [discriminate|].
  destruct (fst (DeviceMaster_new _)) eqn:Hnew.
  - destruct (Z.eqb_spec (fst (DeviceMaster_init
                 (snd (DeviceMaster_new (devices (base b)))))) OK) as [|Hne];
      cbn [negb]; [discriminate|].
    intros _. cbn. repeat split. right. eexists. repeat split; eauto.
  - intros _. cbn. repeat split. now left.
Qed.

Lemma get_device_master_keeps_subscribers (b : Bridge W) :
  _remote_subscriber_topics (snd (get_device_master b))
  = _remote_subscriber_topics b.
Proof. unfold get_device_master. repeat case_match; reflexivity. Qed.

(** X24: process_add_subscription records the topic as remotely subscribed and
    process_remove_subscription removes it, whatever the two calls return;
    other topics are not affected. *)
Theorem subscription_is_recorded_whatever_the_result
    (messageName : string) (rate : Z) (b : Bridge W) :
  let b1 := snd (process_add_subscription messageName rate b) in
  let b2 := snd (process_remove_subscription messageName b1) in
  is_remote_subscriber_present messageName b1 = true
  /\ is_remote_subscriber_present messageName b2 = false
  /\ (forall other, other <> messageName ->
        is_remote_subscriber_present other b1
        = is_remote_subscriber_present other b
        /\ is_remote_subscriber_present other b2
           = is_remote_subscriber_present other b).
Proof.
  assert (Hadd : _remote_subscriber_topics
                   (snd (process_add_subscription messageName rate b))
                 = {[ messageName ]} ∪ _remote_subscriber_topics b).
  { unfold process_add_subscription.
    repeat case_match; cbn; now rewrite get_device_master_keeps_subscribers. }
  assert (Hrem : forall b1, _remote_subscriber_topics
                   (snd (process_remove_subscription messageName b1))
                 = _remote_subscriber_topics b1 ∖ {[ messageName ]}).
  { intros b1. unfold process_remove_subscription.
    repeat case_match; cbn; now rewrite get_device_master_keeps_subscribers. }
  intros b1 b2. subst b1 b2. unfold is_remote_subscriber_present.
  rewrite Hrem, Hadd. split; [|split].
  - apply bool_decide_eq_true_2. apply elem_of_union_l, elem_of_singleton.
    reflexivity.
  - apply bool_decide_eq_false_2. intros [_ H]%elem_of_difference.
    apply H, elem_of_singleton. reflexivity.
  - intros other Hne. split; apply bool_decide_ext.
    + rewrite elem_of_union, elem_of_singleton. tauto.
    + rewrite elem_of_difference, elem_of_union, !elem_of_singleton. tauto.
Qed.

(** X25: process_remove_subscription returns 0 exactly when the path could be
    formatted, the device master is there and the node exists, and it
    returns -1 in every other case. *)
Theorem process_remove_subscription_result (messageName : string) (b : Bridge W) :
  let b' := snd (get_device_master
                   (with_subscribers b
                      (_remote_subscriber_topics b ∖ {[ messageName ]}))) in
  let found := fst (node_mkpath_name messageName) = OK
               /\ _device_master b' = true
               /\ is_Some (getDeviceNode (snd (node_mkpath_name messageName))
                             (devices (base b'))) in
  (fst (process_remove_subscription messageName b) = 0 <-> found)
  /\ (fst (process_remove_subscription messageName b) = -1 <-> ~ found).
Proof.
  intros b' found. subst found b'. unfold process_remove_subscription.
  set (b0 := with_subscribers b _).
  assert (Hdm : fst (get_device_master b0)
                = _device_master (snd (get_device_master b0))).
  { unfold get_device_master.
    destruct (_device_master b0) eqn:Hm; cbn [negb fst snd]; [now symmetry|].
    repeat case_match; reflexivity. }
  rewrite <- Hdm.
  destruct (Z.eqb_spec (fst (node_mkpath_name messageName)) OK) as [Hmk|Hmk];
    cbn [andb].
  - destruct (fst (get_device_master b0)).
    + destruct (getDeviceNode _ _) as [node|]; cbn [fst].
      * split; split; try discriminate; try reflexivity.
        -- intros _. repeat split; eauto.
        -- intros Hn. exfalso. apply Hn. repeat split; eauto.
      * split; split; try discriminate; try reflexivity.
        -- intros (_ & _ & [? ?]); discriminate.
        -- intros _ (_ & _ & [? ?]). discriminate.
    + cbn [fst]. split; split; try discriminate; try reflexivity.
      * intros (_ & ? & _); discriminate.
      * intros _ (_ & ? & _). discriminate.
  - cbn [fst]. split; split; try discriminate; try reflexivity.
    + intros (? & _); contradiction.
    + intros _ (? & _). contradiction.
Qed.

(** X26: a received message for a topic without a node is dropped:
    process_received_message returns -1 and does nothing beyond fetching the
    device master. *)
Theorem message_for_an_unknown_node_is_dropped
    (messageName : string) (length : Z) (data : payload) (b : Bridge W) :
  fst (node_mkpath_name messageName) = OK ->
  fst (get_device_master b) = true ->
  getDeviceNode (snd (node_mkpath_name messageName))
    (devices (base (snd (get_device_master b)))) = None ->
  process_received_message messageName length data b
  = (-1, snd (get_device_master b)).
Proof.
  intros Hmk Hdm Hnode. unfold process_received_message.
  rewrite Hmk, Hdm, Hnode. reflexivity.
Qed.
End BridgeFacts.

(** X27: CDev::lock returns exactly at the first nxsem_wait that returns 0,
    having retried every failed one. *)
Theorem lock_returns_at_the_first_successful_wait (waits rest : list Z) :
  CDev_lock waits = Some rest <->
  exists failed, waits = (failed ++ 0 :: rest)%list
                 /\ Forall (fun r => r <> 0) failed.
Proof.
  split.
  - revert rest. induction waits as [|r waits IH]; intros rest; simpl;
      [discriminate|].
    destruct (Z.eqb_spec r 0) as [->|Hr]; cbn [negb].
    + intros [= <-]. exists []. split; [reflexivity | constructor].
    + intros H. destruct (IH _ H) as (failed & -> & Hall).
      exists (r :: failed). split; [reflexivity | now constructor].
  - intros (failed & -> & Hall). induction Hall as [|r failed Hr _ IH]; simpl.
    + reflexivity.
    + destruct (Z.eqb_spec r 0); [contradiction | exact IH].
Qed.

(** ** orb_exists on the modelled device layer *)

Section SpecMore.
Import SpecDevice.

Lemma first_free_is_free (n : nat) (f : gmap Z OpenFile) (fd : Z) :
  (size (filter (fun k : Z => (fd <= k)%Z) (dom f)) <= n)%nat ->
  f !! first_free f fd n = None.
Proof.
  revert fd. induction n as [|n IH]; intros fd Hsize; simpl.
  - apply not_elem_of_dom. intros Hin.
    assert (Hmem : fd ∈ filter (fun k : Z => (fd <= k)%Z) (dom f))
      by (apply elem_of_filter; split; [lia | exact Hin]).
    assert (Hempty : filter (fun k : Z => (fd <= k)%Z) (dom f) ≡ ∅).
    { apply size_empty_iff. lia. }
    rewrite Hempty in Hmem. now apply not_elem_of_empty in Hmem.
  - destruct (f !! fd) eqn:Hfd; [|exact Hfd].
    apply IH.
    assert (Hsub : filter (fun k : Z => (fd + 1 <= k)%Z) (dom f)
                   ⊂ filter (fun k : Z => (fd <= k)%Z) (dom f)).
    { split.
      - intros k [Hk Hin]%elem_of_filter. apply elem_of_filter. split; [lia|auto].
      - intros Hback.
        assert (Hmem : fd ∈ filter (fun k : Z => (fd <= k)%Z) (dom f)).
        { apply elem_of_filter. split; [lia|]. apply elem_of_dom. eauto. }
        apply Hback in Hmem. apply elem_of_filter in Hmem as [Hk _]. lia. }
    apply subset_size in Hsub. lia.
Qed.

Lemma fresh_fd_is_free (f : gmap Z OpenFile) : f !! fresh_fd f = None.
Proof.
  apply first_free_is_free.
  rewrite <- (size_dom f). apply subseteq_size.
  intros k [_ Hin]%elem_of_filter. exact Hin.
Qed.

Lemma world_eta (w : World) :
  {| taskname := taskname w; now := now w; nodes := nodes w; files := files w;
     host_faults := host_faults w |} = w.
Proof. now destruct w. Qed.

Lemma first_free_ge (f : gmap Z OpenFile) (fd : Z) (n : nat) :
  fd <= first_free f fd n.
Proof.
  revert fd. induction n as [|n IH]; intros fd; simpl; [lia|].
  destruct (f !! fd); [|lia]. specialize (IH (fd + 1)). lia.
Qed.

(** X21: on the modelled device layer orb_exists leaves nodes and open
    descriptors exactly as it found them: the descriptor it opens is closed
    again. *)
Theorem orb_exists_is_a_query
    (cfg : BuildConfig) (meta : option orb_metadata) (instance : Z)
    (st : state World) :
  devices (snd (orb_exists cfg meta instance st)) = devices st.
Proof.
  unfold orb_exists. cbn [node_mkpath layer].
  destruct (negb _); [reflexivity|].
  mrun. cbn [sys_stat sys_open sys_ioctl sys_close layer].
  set (path := snd (mkpath meta (Some instance))).
  assert (Hstat : snd (stat path (devices st)) = devices st)
    by (unfold stat; repeat case_match; reflexivity).
  destruct (stat path (devices st)) as [rs ws]. cbn [snd] in Hstat. subst ws.
  cbn [devices errno manager fst snd].
  match goal with |- context [if ?c =? 0 then _ else _] =>
    destruct (c =? 0) end; [|reflexivity].
  pose proof (fresh_fd_is_free (files (devices st))) as Hfree.
  assert (Hpos : (fresh_fd (files (devices st)) >=? 0) = true).
  { pose proof (first_free_ge (files (devices st)) 3
                  (size (files (devices st)))) as Hge.
    unfold fresh_fd. apply Z.geb_le. lia. }
  unfold open. cbn [devices errno manager].
  destruct (String.eqb path master_path) eqn:Hmaster.
  - cbn [devices errno manager fst snd rc_of].
    rewrite Hpos. cbv beta. cbn [devices].
    unfold ioctl. cbn [files with_files devices]. rewrite lookup_insert_eq.
    cbn [of_path new_file]. rewrite Hmaster.
    cbn [devices errno manager fst snd].
    unfold close. cbn [files with_files]. rewrite lookup_insert_eq.
    cbn [devices errno manager fst snd]. unfold with_files. cbn.
    rewrite delete_insert_id by exact Hfree. apply world_eta.
  - destruct (nodes (devices st) !! path) as [n|] eqn:Hnode.
    + change (0 =? O_WRONLY) with false. cbv iota.
      cbn [devices errno manager fst snd rc_of].
      rewrite Hpos. cbv beta. cbn [devices].
      unfold ioctl. cbn [files with_files with_nodes nodes devices].
      rewrite lookup_insert_eq. cbn [of_path new_file]. rewrite Hmaster.
      rewrite lookup_insert_eq. cbn [node_ioctl].
      cbn [devices errno manager fst snd].
      unfold close. cbn [files with_files]. rewrite lookup_insert_eq.
      cbn [devices errno manager fst snd]. unfold with_files, with_nodes. cbn.
      rewrite delete_insert_id by exact Hfree.
      rewrite insert_id by exact Hnode. apply world_eta.
    + reflexivity.
Qed.
End SpecMore.

(** ** The further properties at concrete inputs *)

Section ConcreteMore.
Import SpecDevice SpecMaster Scenario Rules.

Lemma read_topics_entries_witness :
  read_topics (topics_line [(" ", "att"); (" ", "imu")]) = Some ["att"; "imu"]
  /\ length ["att"; "imu"] = 2%nat
  /\ Forall (fun t => leading_blank t = false) ["att"; "imu"].
Proof.
  assert (H : read_topics (topics_line [(" ", "att"); (" ", "imu")])
              = Some ["att"; "imu"]) by (vm_compute; reflexivity).
  split; [exact H|].
  destruct (read_topics_entries _ _ H) as (Hlen & _ & Hall).
  split; [exact Hlen | exact Hall].
Defined.

Lemma comment_lines_witness :
  skipped_line ("# rules" ++ nl)%string = true
  /\ readPublisherRulesFromFile
       (inr ([module_line " " ("estimator" ++ nl)%string]
             ++ ("# rules" ++ nl)%string
             :: [topics_line [(EmptyString, "att")]])%list) init_rule
     = readPublisherRulesFromFile
         (inr ([module_line " " ("estimator" ++ nl)%string]
               ++ [topics_line [(EmptyString, "att")]])%list) init_rule.
Proof.
  assert (H : skipped_line ("# rules" ++ nl)%string = true) by reflexivity.
  split; [exact H|].
  exact (comment_lines_are_transparent _ _ _ init_rule H).
Defined.

Lemma unknown_key_witness :
  unknown_line ("modul: estimator" ++ nl)%string = true
  /\ fst (readPublisherRulesFromFile
            (inr ([] ++ ("modul: estimator" ++ nl)%string
                  :: [topics_line [(EmptyString, "att")]])%list) init_rule)
     = - EINVAL.
Proof.
  assert (H : unknown_line ("modul: estimator" ++ nl)%string = true)
    by (vm_compute; reflexivity).
  split; [exact H|].
  exact (unknown_key_fails_the_read [] _ _ init_rule H).
Defined.

Lemma indented_line_witness :
  is_blank SPACE = true
  /\ fst (readPublisherRulesFromFile
            (inr ([] ++ String SPACE (module_line " " ("estimator" ++ nl)%string)
                  :: [topics_line [(EmptyString, "att")]])%list) init_rule)
     = - EINVAL.
Proof.
  assert (H : is_blank SPACE = true) by reflexivity.
  split; [exact H|].
  apply (indented_line_fails_the_read [] SPACE _ _ init_rule H).
  discriminate.
Defined.

Lemma successful_read_witness :
  fst (readPublisherRulesFromFile (inr example_lines) init_rule) = OK
  /\ exists name l,
       raw_module_name
         (snd (readPublisherRulesFromFile (inr example_lines) init_rule))
       = Some name
       /\ raw_topics
            (snd (readPublisherRulesFromFile (inr example_lines) init_rule))
          = Some l
       /\ l <> [].
Proof.
  assert (H : fst (readPublisherRulesFromFile (inr example_lines) init_rule) = OK)
    by (vm_compute; reflexivity).
  split; [exact H|].
  exact (successful_read_fills_the_rule _ init_rule H).
Defined.

Lemma read_needs_topics_witness :
  Forall (fun l => startsWith restrict_topics_str l = false)
    [module_line " " ("estimator" ++ nl)%string]
  /\ fst (readPublisherRulesFromFile
            (inr [module_line " " ("estimator" ++ nl)%string]) init_rule)
     = - EINVAL.
Proof.
  assert (H : Forall (fun l => startsWith restrict_topics_str l = false)
                [module_line " " ("estimator" ++ nl)%string])
    by (repeat constructor).
  split; [exact H|].
  exact (read_needs_module_and_topics _ init_rule (or_intror H)).
Defined.

Lemma ignore_others_witness :
  raw_ignore_other_topics
    (snd (readPublisherRulesFromFile
            (inr ([module_line " " ("estimator" ++ nl)%string;
                   topics_line [(EmptyString, "att")]]
                  ++ ("ignore_others: true" ++ nl)%string
                  :: [("ignore_others: false" ++ nl)%string])%list)
            init_rule)) = true.
Proof.
  apply ignore_others_true_is_never_reset; vm_compute; reflexivity.
Defined.

Lemma last_module_line_witness :
  raw_module_name
    (snd (readPublisherRulesFromFile
            (inr ([module_line " " ("mavlink" ++ nl)%string]
                  ++ (module_str ++ (" estimator" ++ nl))%string
                  :: [topics_line [(EmptyString, "att")]])%list) init_rule))
  = Some "estimator".
Proof.
  apply (last_module_line_wins
           [module_line " " ("mavlink" ++ nl)%string] (" estimator" ++ nl)%string
           [topics_line [(EmptyString, "att")]] init_rule).
  - vm_compute; reflexivity.
  - repeat constructor.
Defined.

Lemma unreadable_rules_witness :
  fst (readPublisherRulesFromFile no_rules_file
         {| raw_topics := None; raw_module_name := None;
            raw_ignore_other_topics := false |}) <> OK
  /\ publisher_rule_denies cfg (Manager_ctor cfg no_rules_file) "mavlink" "att"
     = false.
Proof.
  assert (H : fst (readPublisherRulesFromFile no_rules_file
                     {| raw_topics := None; raw_module_name := None;
                        raw_ignore_other_topics := false |}) <> OK)
    by (vm_compute; discriminate).
  split; [exact H|].
  exact (unreadable_rules_leave_publishing_unrestricted cfg no_rules_file
           "mavlink" "att" (or_intror H)).
Defined.

Lemma node_advertise_EEXIST_witness :
  fst (fst (node_advertise imu None 75 st_imu)) = OK.
Proof.
  pose (w1 := snd (sys_open TOPIC_MASTER_DEVICE_PATH 0 (devices st_imu))).
  pose (adv := {| adv_meta := imu; adv_instance := None; adv_priority := 75 |}).
  pose (w2 := snd (sys_ioctl 3 (ORBIOCADVERTISE adv) w1)).
  refine (proj1 (node_advertise_tolerates_EEXIST imu None 75 st_imu 3 w1 w2
                   EEXIST None _ _ _)).
  - vm_compute; reflexivity.
  - lia.
  - vm_compute; reflexivity.
Defined.

Lemma advertise_failure_witness :
  fst (orb_advertise_multi cfg master_named (Some sample) None 75 1 st_boot)
  = (nullptr, None).
Proof.
  pose (st1 := snd (node_open (Some master_named) (Some sample) true None 75
                      st_boot)).
  pose (q := sys_ioctl 3 (ORBIOCSETQUEUESIZE 1) (devices st1)).
  pose (w3 := snd (sys_ioctl 3 ORBIOCGADVERTISER (snd q))).
  refine (proj1 (advertise_closes_the_node_on_failure cfg master_named sample
                   None 75 1 st_boot st1 3 None (fst q) (snd q) w3 ENOTTY None
                   _ _ _ _ _)).
  - vm_compute; reflexivity.
  - vm_compute; reflexivity.
  - lia.
  - vm_compute; reflexivity.
  - vm_compute; reflexivity.
Defined.

Lemma orb_subscribe_instance_0_witness :
  orb_subscribe_multi (Some imu) 0 st_imu = orb_subscribe (Some imu) st_imu.
Proof.
  refine (proj2 (orb_subscribe_is_instance_0_on_an_existing_node imu st_imu
                   "/obj/imu" 3
                   (snd (sys_open "/obj/imu" O_RDONLY (devices st_imu)))
                   _ _ _ _)).
  - vm_compute; reflexivity.
  - vm_compute; reflexivity.
  - vm_compute; reflexivity.
  - lia.
Defined.

Lemma orb_subscribe_multi_conversion_witness :
  fst (orb_subscribe_multi (Some imu) 4294967295 st_imu)
  = fst (fst (node_open (Some imu) None false (Some (-1)) ORB_PRIO_DEFAULT st_imu)).
Proof.
  assert (Hrange : 0 <= 4294967295 < UINT_MODULUS) by (unfold UINT_MODULUS; lia).
  exact (proj1 (proj2 (orb_subscribe_multi_converts_the_instance
                         (Some imu) 4294967295 st_imu Hrange))).
Defined.

Lemma orb_get_interval_failure_witness :
  fst (orb_get_interval 7 5000 st_boot) = (-1, 5000 / 1000).
Proof.
  apply (orb_get_interval_divides_even_on_failure 7 5000 st_boot EBADF).
  vm_compute; reflexivity.
Defined.

Lemma remote_advertisement_witness :
  fst (orb_exists cfg (Some att) 0
         (snd (process_remote_topic (o_name att) true st_boot))) = OK
  /\ fst (orb_exists cfg (Some att) 0
            (snd (process_remote_topic (o_name att) false st_boot))) = -1.
Proof.
  apply (remote_advertisement_toggles_exists cfg att 0 st_boot "/obj/att"
           ENOENT None (devices st_boot) ENOENT None (devices st_boot)).
  - reflexivity.
  - vm_compute; reflexivity.
  - vm_compute; reflexivity.
  - vm_compute; reflexivity.
Defined.

Lemma get_device_master_witness :
  get_device_master (snd (get_device_master (bridge_of st_boot)))
  = (true, snd (get_device_master (bridge_of st_boot))).
Proof.
  apply get_device_master_is_created_once. vm_compute; reflexivity.
Defined.

Lemma get_device_master_failure_witness :
  fst (get_device_master (bridge_of st_flaky)) = false
  /\ _device_master (snd (get_device_master (bridge_of st_flaky))) = false
  /\ errno (base (snd (get_device_master (bridge_of st_flaky)))) = - - EINTR.
Proof.
  assert (H : fst (get_device_master (bridge_of st_flaky)) = false)
    by (vm_compute; reflexivity).
  split; [exact H|].
  destruct (get_device_master_failure_is_retried _ H) as (Hnull & _ & _ & _).
  split; [exact Hnull | vm_compute; reflexivity].
Defined.

Lemma message_dropped_witness :
  process_received_message "imu" 2 sample (bridge_of st_boot)
  = (-1, snd (get_device_master (bridge_of st_boot))).
Proof.
  apply message_for_an_unknown_node_is_dropped; vm_compute; reflexivity.
Defined.

End ConcreteMore.
